(** * httpie/sessions.py: persistent, JSON-serialized sessions

    A shallow embedding of [httpie/sessions.py] and the properties of its
    specification.  Python dictionaries whose iteration order the code
    relies on are association lists in insertion order; the session store
    on disk is a finite map; the request orchestrator runs in a small
    state-and-exception monad over the store and the log of calls made to
    the HTTP client. *)

From Stdlib Require Import String Ascii ZArith List Bool Lia.
From stdpp Require Import base option list gmap strings sorting.

Local Open Scope string_scope.
Local Open Scope list_scope.
Set Warnings "-clear-no-such-hyp".

(** ** Python values, exceptions and dictionaries *)

Module Py.

(** The exceptions this module can raise or let through. *)
Inductive Exn :=
| AssertionError
| TypeError
| ValueError
| KeyError (key : string)
| OSError (errno : string)
| ConnectionError (msg : string)
| Timeout (msg : string).

Inductive Res (A : Type) :=
| Ok (a : A)
| Raise (e : Exn).
Arguments Ok {A} a.
Arguments Raise {A} e.

Definition res_bind {A B} (r : Res A) (k : A -> Res B) : Res B :=
  match r with
  | Ok a => k a
  | Raise e => Raise e
  end.

(** JSON scalars as they sit in a session file, plus the small
    dictionary a cookie keeps in its [_rest] attribute. *)
Inductive Val :=
| VNone
| VBool (b : bool)
| VInt (z : Z)
| VStr (s : string)
| VDict (d : list (string * option string)).

(** A [dict] with string keys whose iteration order matters: pairs in
    insertion order. *)
Definition PyDict (V : Type) := list (string * V).

(** [d.get(k)] *)
Fixpoint dict_get {V} (k : string) (d : PyDict V) : option V :=
  match d with
  | [] => None
  | (k', v) :: d' => if String.eqb k k' then Some v else dict_get k d'
  end.

(** [d[k] = v]: an existing key keeps its place, a new one goes last. *)
Fixpoint dict_set {V} (k : string) (v : V) (d : PyDict V) : PyDict V :=
  match d with
  | [] => [(k, v)]
  | (k', v') :: d' =>
      if String.eqb k k' then (k, v) :: d' else (k', v') :: dict_set k v d'
  end.

(** [d.pop(k)] on a dictionary whose order plays no part: the value and
    the dictionary without the key, or nothing when the key is missing
    (Python raises [KeyError]). *)
Definition dict_pop {V} (k : string) (d : gmap string V)
  : option (V * gmap string V) :=
  match d !! k with
  | Some v => Some (v, delete k d)
  | None => None
  end.

Definition dict_keys {V} (d : PyDict V) : list string := map fst d.
Definition dict_values {V} (d : PyDict V) : list V := map snd d.

(** *** Strings *)

Definition chars (s : string) : list ascii := list_ascii_of_string s.
Definition str (l : list ascii) : string := string_of_list_ascii l.

Definition between (lo hi c : ascii) : bool :=
  Nat.leb (nat_of_ascii lo) (nat_of_ascii c)
  && Nat.leb (nat_of_ascii c) (nat_of_ascii hi).

Definition is_digit (c : ascii) : bool := between "0" "9" c.
Definition is_upper (c : ascii) : bool := between "A" "Z" c.
Definition is_lower (c : ascii) : bool := between "a" "z" c.

Definition newline : ascii := "010"%char.

(** [s.replace(a, b)] for one-character [a] and [b]. *)
Definition replace_char (a b : ascii) (s : string) : string :=
  str (map (fun c => if Ascii.eqb c a then b else c) (chars s)).

(** [s.lower()] on ASCII letters. *)
Definition lower_char (c : ascii) : ascii :=
  if is_upper c then ascii_of_nat (nat_of_ascii c + 32) else c.
Definition lower (s : string) : string := str (map lower_char (chars s)).

Fixpoint prefix_chars (p s : list ascii) : bool :=
  match p, s with
  | [], _ => true
  | a :: p', b :: s' => Ascii.eqb a b && prefix_chars p' s'
  | _ :: _, [] => false
  end.

(** [s.startswith(p)] *)
Definition startswith (p s : string) : bool :=
  prefix_chars (chars p) (chars s).

(** [s.endswith(p)] *)
Definition endswith (p s : string) : bool :=
  prefix_chars (rev (chars p)) (rev (chars s)).

(** [s.split(sep)[-1]] for a one-character separator: what follows the
    last occurrence of [sep], the whole string when there is none. *)
Fixpoint after_last (sep : ascii) (l : list ascii) : list ascii :=
  match l with
  | [] => []
  | c :: l' =>
      if existsb (Ascii.eqb sep) l' then after_last sep l'
      else if Ascii.eqb c sep then l' else l
  end.
Definition split_last (sep : ascii) (s : string) : string :=
  str (after_last sep (chars s)).

(** [os.path.join(a, b)] of [posixpath]. *)
Definition path_join (a b : string) : string :=
  if startswith "/" b then b
  else if String.eqb a "" then b
  else match rev (chars a) with
       | "/"%char :: _ => a +:+ b
       | _ => a +:+ "/" +:+ b
       end.

(** *** The two regular expressions of the module

    [re.match('^[class]+$', s)]: one or more characters of the class, then
    [$], which Python lets match at the end of the string and also just
    before a newline that ends it. *)
Fixpoint class_star_end (cls : ascii -> bool) (l : list ascii) : bool :=
  match l with
  | [] => true
  | c :: l' =>
      if cls c then class_star_end cls l'
      else Ascii.eqb c newline && match l' with [] => true | _ => false end
  end.

Definition re_match_class_plus (cls : ascii -> bool) (s : string) : bool :=
  match chars s with
  | [] => false
  | c :: l => cls c && class_star_end cls l
  end.

(** [re.search(r'_(\d+)$', s)] on the reversed characters: the final
    newline [$] may skip, the digits of group 1 (reversed), and what
    precedes the underscore (reversed). *)
Fixpoint span_digits (l : list ascii) : list ascii * list ascii :=
  match l with
  | [] => ([], [])
  | c :: l' =>
      if is_digit c then
        let '(ds, rest) := span_digits l' in (c :: ds, rest)
      else ([], l)
  end.

Definition port_suffix (l : list ascii)
  : option (list ascii * list ascii * list ascii) :=
  let r := rev l in
  let '(nl, r1) := match r with
                   | c :: t => if Ascii.eqb c newline then ([c], t) else ([], r)
                   | [] => ([], r)
                   end in
  match span_digits r1 with
  | ((_ :: _) as ds, c :: before) =>
      if Ascii.eqb c "_" then Some (nl, ds, before) else None
  | _ => None
  end.

(** [re.sub(r'_(\d+)$', r':\1', s)] *)
Definition re_sub_port (s : string) : string :=
  match port_suffix (chars s) with
  | Some (nl, ds, before) => str (rev (nl ++ ds ++ ":"%char :: before))
  | None => s
  end.

(** [sorted(names)]: by character code, as Python compares strings. *)
Definition str_le (a b : string) : Prop := String.leb a b = true.
#[export] Instance str_le_dec a b : Decision (str_le a b) :=
  decide (String.leb a b = true).
Definition sorted (names : list string) : list string :=
  merge_sort str_le names.

End Py.
Export Py.

(** ** The cookie jar of the HTTP client library

    [cookielib.Cookie], [requests.cookies.create_cookie] and the jar are
    library code.  A cookie is a record of the attributes the library gives
    it, with the types it documents; the jar is its [_cookies] dictionary:
    domain, then path, then name. *)

Module Cookies.

Record Cookie := mkCookie {
  ck_version : option Z;
  ck_name : string;
  ck_value : option string;
  ck_port : option string;
  ck_port_specified : bool;
  ck_domain : string;
  ck_domain_specified : bool;
  ck_domain_initial_dot : bool;
  ck_path : string;
  ck_path_specified : bool;
  ck_secure : bool;
  ck_expires : option Z;
  ck_discard : bool;
  ck_comment : option string;
  ck_comment_url : option string;
  ck_rfc2109 : bool;
  ck_rest : list (string * option string)
}.

Definition of_opt_int (o : option Z) : Val :=
  match o with Some z => VInt z | None => VNone end.
Definition of_opt_str (o : option string) : Val :=
  match o with Some s => VStr s | None => VNone end.

(** [cookie.__dict__.items()] *)
Definition Cookie_dict (c : Cookie) : PyDict Val :=
  [ ("version", of_opt_int (ck_version c));
    ("name", VStr (ck_name c));
    ("value", of_opt_str (ck_value c));
    ("port", of_opt_str (ck_port c));
    ("port_specified", VBool (ck_port_specified c));
    ("domain", VStr (ck_domain c));
    ("domain_specified", VBool (ck_domain_specified c));
    ("domain_initial_dot", VBool (ck_domain_initial_dot c));
    ("path", VStr (ck_path c));
    ("path_specified", VBool (ck_path_specified c));
    ("secure", VBool (ck_secure c));
    ("expires", of_opt_int (ck_expires c));
    ("discard", VBool (ck_discard c));
    ("comment", of_opt_str (ck_comment c));
    ("comment_url", of_opt_str (ck_comment_url c));
    ("rfc2109", VBool (ck_rfc2109 c));
    ("_rest", VDict (ck_rest c)) ].

(** Reading an attribute at its type; a value of another type is the
    constructor's error. *)
Definition as_opt_int (v : Val) : Res (option Z) :=
  match v with
  | VNone => Ok None
  | VInt z => Ok (Some z)
  | _ => Raise TypeError
  end.
Definition as_opt_str (v : Val) : Res (option string) :=
  match v with
  | VNone => Ok None
  | VStr s => Ok (Some s)
  | _ => Raise TypeError
  end.
Definition as_str (v : Val) : Res string :=
  match v with
  | VStr s => Ok s
  | _ => Raise TypeError
  end.
Definition as_bool (v : Val) : Res bool :=
  match v with
  | VBool b => Ok b
  | _ => Raise TypeError
  end.
Definition as_rest (v : Val) : Res (list (string * option string)) :=
  match v with
  | VDict d => Ok d
  | _ => Raise TypeError
  end.

(** The keyword arguments [create_cookie] takes besides [name] and
    [value], which the caller passes by position. *)
Definition cookie_kwargs : list string :=
  [ "version"; "port"; "domain"; "path"; "secure"; "expires"; "discard";
    "comment"; "comment_url"; "rest"; "rfc2109" ].

Definition kwarg (k : string) (default : Val) (kwargs : gmap string Val) : Val :=
  match kwargs !! k with
  | Some v => v
  | None => default
  end.

Definition opt_truthy (o : option string) : bool :=
  match o with Some s => negb (String.eqb s "") | None => false end.

(** [create_cookie(name, value, **kwargs)]: unknown keywords are a
    [TypeError]; the defaults are updated with [kwargs], the four
    [*_specified]/[initial_dot] flags are computed, and [Cookie(...)]
    lower-cases the domain. *)
Definition create_cookie (name : string) (value : Val) (kwargs : gmap string Val)
  : Res Cookie :=
  if bool_decide (dom kwargs ⊆ list_to_set cookie_kwargs) then
    res_bind (as_opt_str value) (fun value =>
    res_bind (as_opt_int (kwarg "version" (VInt 0) kwargs)) (fun version =>
    res_bind (as_opt_str (kwarg "port" VNone kwargs)) (fun port =>
    res_bind (as_str (kwarg "domain" (VStr "") kwargs)) (fun domain =>
    res_bind (as_str (kwarg "path" (VStr "/") kwargs)) (fun path =>
    res_bind (as_bool (kwarg "secure" (VBool false) kwargs)) (fun secure =>
    res_bind (as_opt_int (kwarg "expires" VNone kwargs)) (fun expires =>
    res_bind (as_bool (kwarg "discard" (VBool true) kwargs)) (fun discard =>
    res_bind (as_opt_str (kwarg "comment" VNone kwargs)) (fun comment =>
    res_bind (as_opt_str (kwarg "comment_url" VNone kwargs)) (fun comment_url =>
    res_bind (as_rest (kwarg "rest" (VDict [("HttpOnly", None)]) kwargs)) (fun rest =>
    res_bind (as_bool (kwarg "rfc2109" (VBool false) kwargs)) (fun rfc2109 =>
    Ok {| ck_version := version;
          ck_name := name;
          ck_value := value;
          ck_port := port;
          ck_port_specified := opt_truthy port;
          ck_domain := lower domain;
          ck_domain_specified := negb (String.eqb domain "");
          ck_domain_initial_dot := startswith "." domain;
          ck_path := path;
          ck_path_specified := negb (String.eqb path "");
          ck_secure := secure;
          ck_expires := expires;
          ck_discard := discard;
          ck_comment := comment;
          ck_comment_url := comment_url;
          ck_rfc2109 := rfc2109;
          ck_rest := rest |}))))))))))))
  else Raise TypeError.

(** [jar._cookies] *)
Definition CookieJar := PyDict (PyDict (PyDict Cookie)).

(** [RequestsCookieJar()] *)
Definition empty_jar : CookieJar := [].

Definition or_empty {V} (o : option (PyDict V)) : PyDict V :=
  match o with Some d => d | None => [] end.

(** [jar.set_cookie(cookie)] *)
Definition set_cookie (cookie : Cookie) (jar : CookieJar) : CookieJar :=
  let c2 := or_empty (dict_get (ck_domain cookie) jar) in
  let c3 := or_empty (dict_get (ck_path cookie) c2) in
  dict_set (ck_domain cookie)
    (dict_set (ck_path cookie) (dict_set (ck_name cookie) cookie c3) c2) jar.

(** [cookie.is_expired(now)]; [now] is the clock's reading, rounded down
    to whole seconds ([expires] is an integer). *)
Definition is_expired (now : Z) (c : Cookie) : bool :=
  match ck_expires c with
  | Some e => (e <=? now)%Z
  | None => false
  end.

Definition map_values {A B} (f : A -> B) (d : PyDict A) : PyDict B :=
  map (fun kv => (fst kv, f (snd kv))) d.

(** [jar.clear_expired_cookies()]: every expired cookie is deleted from
    the innermost dictionary that holds it. *)
Definition clear_expired_cookies (now : Z) (jar : CookieJar) : CookieJar :=
  map_values (map_values (filter (fun kv => is_expired now (snd kv) = false))) jar.

(** The cookies of a jar in iteration order, each with the key it is
    filed under. *)
Definition jar_items (jar : CookieJar) : list (string * Cookie) :=
  concat (map (fun host => concat (dict_values host)) (dict_values jar)).

(** The (name, value) pairs of a jar. *)
Definition jar_pairs (jar : CookieJar) : list (string * option string) :=
  map (fun kv => (ck_name (snd kv), ck_value (snd kv))) (jar_items jar).

End Cookies.
Export Cookies.

(** ** Session data and the store on disk *)

Module Store.

(** The value under the ['auth'] key. *)
Record AuthRecord := mkAuth {
  a_type : option string;
  a_username : option string;
  a_password : option string
}.

(** The three keys of a session: ['headers'], ['cookies'], ['auth'].
    The headers are a finite map (their order plays no part); the cookie
    mapping keeps its order, which the getter walks. *)
Record SessionData := mkData {
  s_headers : gmap string string;
  s_cookies : PyDict (gmap string Val);
  s_auth : AuthRecord
}.

Definition set_headers (h : gmap string string) (d : SessionData) : SessionData :=
  {| s_headers := h; s_cookies := s_cookies d; s_auth := s_auth d |}.
Definition set_cookies (c : PyDict (gmap string Val)) (d : SessionData)
  : SessionData :=
  {| s_headers := s_headers d; s_cookies := c; s_auth := s_auth d |}.
Definition set_auth (a : AuthRecord) (d : SessionData) : SessionData :=
  {| s_headers := s_headers d; s_cookies := s_cookies d; s_auth := a |}.

(** A file of a host directory: a session, or text that is not JSON. *)
Inductive FileContent :=
| Stored (d : SessionData)
| Malformed (text : string).

(** An entry of a sessions root: a host directory with its files, or a
    regular file. *)
Inductive Entry :=
| Directory (files : gmap string FileContent)
| RegularFile (text : string).

(** The sessions roots by path, each with its entries by name. *)
Abbreviation FS := (gmap string (gmap string Entry)).

(** [os.path.join(root, name)] for a [name] of one component. *)
Record DirPath := mkDir { dp_root : string; dp_name : string }.
(** [os.path.join(directory, file)] *)
Record FilePath := mkFile { fp_dir : DirPath; fp_name : string }.

Definition lookup_entry (p : DirPath) (fs : FS) : option Entry :=
  match fs !! dp_root p with
  | Some entries => entries !! dp_name p
  | None => None
  end.

Definition root_entries (root : string) (fs : FS) : gmap string Entry :=
  match fs !! root with
  | Some entries => entries
  | None => ∅
  end.

Definition set_entry (p : DirPath) (e : Entry) (fs : FS) : FS :=
  <[dp_root p := <[dp_name p := e]> (root_entries (dp_root p) fs)]> fs.

(** [os.makedirs(path, mode=0o700)] with [EEXIST] swallowed: an entry
    already there, directory or not, is left as it is. *)
Definition makedirs (p : DirPath) (fs : FS) : FS :=
  match lookup_entry p fs with
  | Some _ => fs
  | None => set_entry p (Directory ∅) fs
  end.

(** The file at a path, when its directory is one and holds it. *)
Definition read_file (p : FilePath) (fs : FS) : option FileContent :=
  match lookup_entry (fp_dir p) fs with
  | Some (Directory files) => files !! fp_name p
  | _ => None
  end.

(** [os.listdir(root)], unsorted; empty when the root is missing. *)
Definition listdir (root : string) (fs : FS) : list string :=
  map fst (map_to_list (root_entries root fs)).

(** [os.path.isdir(os.path.join(root, name))] *)
Definition isdir (p : DirPath) (fs : FS) : bool :=
  match lookup_entry p fs with
  | Some (Directory _) => true
  | _ => false
  end.

(** [glob.glob1(dirname, pattern)] drops the names that begin with a dot
    when the pattern does not. *)
Definition hidden (name : string) : bool := startswith "." name.

(** [os.path.splitext(fn)[0]]: cut at the last dot, unless only dots
    come before it. *)
Fixpoint span_ext (r : list ascii) : option (list ascii) :=
  match r with
  | [] => None
  | c :: r' => if Ascii.eqb c "." then Some r' else span_ext r'
  end.
Definition splitext_root (fn : string) : string :=
  match span_ext (rev (chars fn)) with
  | Some before =>
      if existsb (fun c => negb (Ascii.eqb c ".")) before
      then str (rev before) else fn
  | None => fn
  end.

End Store.
Export Store.

(** ** The world the module acts on, and its monad *)

Module World.

(** A credential object of [requests.auth]: the two classes the module
    imports and keys its table on. *)
Inductive Credential :=
| HTTPBasicAuth (username password : option string)
| HTTPDigestAuth (username password : option string).

Definition cred_username (c : Credential) : option string :=
  match c with HTTPBasicAuth u _ | HTTPDigestAuth u _ => u end.
Definition cred_password (c : Credential) : option string :=
  match c with HTTPBasicAuth _ p | HTTPDigestAuth _ p => p end.

(** [request_kwargs]: the keys the module reads, and the others (method,
    data, ...) it passes through. *)
Record RequestKwargs := mkKwargs {
  rk_headers : gmap string string;
  rk_url : string;
  rk_auth : option Credential;
  rk_other : PyDict Val
}.

Definition with_headers (h : gmap string string) (k : RequestKwargs) : RequestKwargs :=
  {| rk_headers := h; rk_url := rk_url k; rk_auth := rk_auth k;
     rk_other := rk_other k |}.
Definition with_auth (a : Credential) (k : RequestKwargs) : RequestKwargs :=
  {| rk_headers := rk_headers k; rk_url := rk_url k; rk_auth := Some a;
     rk_other := rk_other k |}.

(** One call [rsession.request(cookies=jar, **request_kwargs)]. *)
Record ClientCall := mkCall {
  call_cookies : CookieJar;
  call_kwargs : RequestKwargs
}.

Record Response := mkResponse { status_code : Z; text : string }.

(** What the HTTP client does with a call: it returns a response and
    leaves its jar in [rsession.cookies], or it raises. *)
Inductive ClientOutcome :=
| Returned (response : Response) (cookies : CookieJar)
| Raised (e : Exn).

Record World := mkWorld {
  fs : FS;
  sent : list ClientCall
}.

Definition with_fs (f : FS) (w : World) : World :=
  {| fs := f; sent := sent w |}.

(** A computation reads and changes the world, and returns or raises;
    what it did before raising stays done. *)
Definition M (A : Type) : Type := World -> Res A * World.

#[export] Instance M_ret : MRet M := fun A a w => (Ok a, w).
#[export] Instance M_bind : MBind M := fun A B k m w =>
  match m w with
  | (Ok a, w') => k a w'
  | (Raise e, w') => (Raise e, w')
  end.

Definition raise {A} (e : Exn) : M A := fun w => (Raise e, w).
Definition lift {A} (r : Res A) : M A := fun w => (r, w).
(** [try: ... except Exception as e: ...] with the outcome in hand. *)
Definition attempt {A} (m : M A) : M (Res A) :=
  fun w => let '(r, w') := m w in (Ok r, w').
(** [assert cond] *)
Definition assert (cond : bool) : M unit :=
  if cond then mret tt else raise AssertionError.

Definition get_fs : M FS := fun w => (Ok (fs w), w).
Definition put_fs (f : FS) : M unit := fun w => (Ok tt, with_fs f w).

(** *** File system calls *)

Definition os_makedirs (p : DirPath) : M unit :=
  f ← get_fs; put_fs (makedirs p f).

Definition os_path_exists (p : FilePath) : M bool :=
  f ← get_fs;
  mret (match read_file p f with Some _ => true | None => false end).

Definition os_path_isdir (p : DirPath) : M bool :=
  f ← get_fs; mret (isdir p f).

(** [glob.glob1(root, '*')] *)
Definition glob1_all (root : string) : M (list string) :=
  f ← get_fs;
  mret (filter (fun n => hidden n = false) (listdir root f)).

(** [glob.glob1(path, '*.json')]; nothing when [path] is no directory. *)
Definition glob1_json (p : DirPath) : M (list string) :=
  f ← get_fs;
  mret (match lookup_entry p f with
        | Some (Directory files) =>
            filter (fun n => hidden n = false ∧ endswith ".json" n = true)
                   (map fst (map_to_list files))
        | _ => []
        end).

(** [shutil.rmtree(path)] *)
Definition shutil_rmtree (p : DirPath) : M unit :=
  f ← get_fs;
  match lookup_entry p f with
  | Some (Directory _) =>
      put_fs (<[dp_root p := delete (dp_name p) (root_entries (dp_root p) f)]> f)
  | Some (RegularFile _) => raise (OSError "ENOTDIR")
  | None => raise (OSError "ENOENT")
  end.

(** Reading a session file: absent, or its content; [ENOTDIR] when the
    directory of the path is a regular file. *)
Definition open_read (p : FilePath) : M (option FileContent) :=
  f ← get_fs;
  match lookup_entry (fp_dir p) f with
  | Some (RegularFile _) => raise (OSError "ENOTDIR")
  | _ => mret (read_file p f)
  end.

Definition open_write (p : FilePath) (c : FileContent) : M unit :=
  f ← get_fs;
  match lookup_entry (fp_dir p) f with
  | Some (Directory files) =>
      put_fs (set_entry (fp_dir p) (Directory (<[fp_name p := c]> files)) f)
  | Some (RegularFile _) => raise (OSError "ENOTDIR")
  | None => raise (OSError "ENOENT")
  end.

Definition os_unlink (p : FilePath) : M unit :=
  f ← get_fs;
  match lookup_entry (fp_dir p) f with
  | Some (Directory files) =>
      match files !! fp_name p with
      | Some _ =>
          put_fs (set_entry (fp_dir p) (Directory (delete (fp_name p) files)) f)
      | None => raise (OSError "ENOENT")
      end
  | Some (RegularFile _) => raise (OSError "ENOTDIR")
  | None => raise (OSError "ENOENT")
  end.

End World.
Export World.

(** ** sessions.py *)

Module Sessions.

Definition SESSIONS_DIR_NAME : string := "sessions".

(** *** class Host *)

Record Host := mkHost { host_name : string; root_dir : string }.

Definition is_alnum (c : ascii) : bool := is_lower c || is_upper c || is_digit c.

(** [[a-zA-Z0-9_.:-]] *)
Definition host_name_char (c : ascii) : bool :=
  is_alnum c || bool_decide (c ∈ chars "_.:-").
(** [[a-zA-Z0-9_.-]] *)
Definition session_name_char (c : ascii) : bool :=
  is_alnum c || bool_decide (c ∈ chars "_.-").

(** [Host.VALID_NAME_PATTERN.match(name)] *)
Definition Host_VALID_NAME (name : string) : bool :=
  re_match_class_plus host_name_char name.
(** [Session.VALID_NAME_PATTERN.match(name)] *)
Definition Session_VALID_NAME (name : string) : bool :=
  re_match_class_plus session_name_char name.

(** [Host.__init__] *)
Definition Host_init (name : string) (root_dir : string) : M Host :=
  _ ← assert (Host_VALID_NAME name);
  mret {| host_name := name; root_dir := root_dir |}.

(** The directory of a host under its root, before it is made. *)
Definition Host_dir (self : Host) : DirPath :=
  {| dp_root := root_dir self;
     dp_name := replace_char ":" "_" (host_name self) |}.

(** [Host.path] *)
Definition Host_path (self : Host) : M DirPath :=
  let path := Host_dir self in
  _ ← os_makedirs path;
  mret path.

(** [Host.delete] *)
Definition Host_delete (self : Host) : M unit :=
  path ← Host_path self;
  shutil_rmtree path.

(** [Host.all]: the hosts the generator yields, and the exception that
    ends it when a directory's name does not pass [Host.__init__]. *)
Fixpoint Host_all_from (root_dir : string) (names : list string)
  : M (list Host * option Exn) :=
  match names with
  | [] => mret ([], None)
  | name :: rest =>
      d ← os_path_isdir {| dp_root := root_dir; dp_name := name |};
      if (d : bool) then
        let real_name := re_sub_port name in
        r ← attempt (Host_init real_name root_dir);
        match r with
        | Ok h =>
            more ← Host_all_from root_dir rest;
            mret (h :: fst more, snd more)
        | Raise e => mret ([], Some e)
        end
      else Host_all_from root_dir rest
  end.

Definition Host_all (root_dir : string) : M (list Host * option Exn) :=
  names ← glob1_all root_dir;
  Host_all_from root_dir (sorted names).

(** *** class Session(BaseConfigDict) *)

Record Session := mkSession {
  host : Host;
  name : string;
  data : SessionData
}.

Definition with_data (d : SessionData) (self : Session) : Session :=
  {| host := host self; name := name self; data := d |}.

Definition no_auth : AuthRecord :=
  {| a_type := None; a_username := None; a_password := None |}.

Definition defaults : SessionData :=
  {| s_headers := ∅; s_cookies := []; s_auth := no_auth |}.

(** [Session.__init__] *)
Definition Session_init (host : Host) (name : string) : M Session :=
  _ ← assert (Session_VALID_NAME name);
  mret {| host := host; name := name; data := defaults |}.

(** [Session(host, name)] when [name] may be [None]: the pattern's
    [match] takes strings only. *)
Definition Session_new (host : Host) (name : option string) : M Session :=
  match name with
  | Some n => Session_init host n
  | None => raise TypeError
  end.

(** [Session.directory] *)
Definition Session_directory (self : Session) : M DirPath :=
  Host_path (host self).

(** Modelled from the spec: [BaseConfigDict.path], of the config module
    that is not part of this file; the path is
    [host.directory / name + ".json"]. *)
Definition Session_path (self : Session) : M FilePath :=
  directory ← Session_directory self;
  mret {| fp_dir := directory; fp_name := name self +:+ ".json" |}.

(** Modelled from the spec: [BaseConfigDict.is_new]; true if no file yet
    exists at the session's path. *)
Definition Session_is_new (self : Session) : M bool :=
  path ← Session_path self;
  e ← os_path_exists path;
  mret (negb e).

(** Modelled from the spec: [BaseConfigDict.load]; reads the JSON file at
    the session's path if present, on absence the in-memory defaults
    stand, malformed JSON fails with a parse error that propagates. *)
Definition Session_load (self : Session) : M Session :=
  path ← Session_path self;
  c ← open_read path;
  match c with
  | None => mret self
  | Some (Stored d) => mret (with_data d self)
  | Some (Malformed _) => raise ValueError
  end.

(** Modelled from the spec: [BaseConfigDict.save]; serializes the current
    state to the file path. *)
Definition Session_save (self : Session) : M unit :=
  path ← Session_path self;
  open_write path (Stored (data self)).

(** Modelled from the spec: [BaseConfigDict.delete]; deleting a single
    session removes only its file (a file that is not there is left
    alone). *)
Definition Session_delete (self : Session) : M unit :=
  path ← Session_path self;
  e ← os_path_exists path;
  if (e : bool) then os_unlink path else mret tt.

(** The [cookies] getter, entry by entry: [cookie_dict.pop('value')]
    changes the stored entry, then [create_cookie] and [set_cookie].
    Returns the jar or the exception, and the stored mapping as the
    loop leaves it. *)
Fixpoint cookies_loop (items : PyDict (gmap string Val)) (jar : CookieJar)
  : Res CookieJar * PyDict (gmap string Val) :=
  match items with
  | [] => (Ok jar, [])
  | (name, cookie_dict) :: rest =>
      match dict_pop "value" cookie_dict with
      | None => (Raise (KeyError "value"), items)
      | Some (value, cookie_dict) =>
          match create_cookie name value cookie_dict with
          | Raise e => (Raise e, (name, cookie_dict) :: rest)
          | Ok cookie =>
              let '(r, rest) := cookies_loop rest (set_cookie cookie jar) in
              (r, (name, cookie_dict) :: rest)
          end
      end
  end.

(** [Session.cookies] (getter), read at clock time [now]: the jar, and
    the session as the read leaves it. *)
Definition Session_cookies (now : Z) (self : Session)
  : Res CookieJar * Session :=
  let jar := empty_jar in
  let '(r, stored) := cookies_loop (s_cookies (data self)) jar in
  (res_bind r (fun jar => Ok (clear_expired_cookies now jar)),
   with_data (set_cookies stored (data self)) self).

Definition excluded : list string :=
  [ "_rest"; "name"; "port_specified";
    "domain_specified"; "domain_initial_dot";
    "path_specified"; "comment"; "comment_url" ].

(** The inner loop of the setter: the attributes kept for one cookie. *)
Definition cookie_dict_of (cookie : Cookie) : gmap string Val :=
  fold_left
    (fun cookie_dict kv =>
       if bool_decide (fst kv ∈ excluded) then cookie_dict
       else <[fst kv := snd kv]> cookie_dict)
    (Cookie_dict cookie) ∅.

(** The three loops of the setter over [jar._cookies]. *)
Definition encode_cookies (jar : CookieJar) : PyDict (gmap string Val) :=
  fold_left
    (fun cookies host =>
       fold_left
         (fun cookies path =>
            fold_left
              (fun cookies nc =>
                 dict_set (fst nc) (cookie_dict_of (snd nc)) cookies)
              path cookies)
         (dict_values host) cookies)
    (dict_values jar) [].

(** [Session.cookies] (setter) *)
Definition Session_cookies_set (jar : CookieJar) (self : Session) : Session :=
  with_data (set_cookies (encode_cookies jar) (data self)) self.

(** [Session.auth] (getter) *)
Definition Session_auth (self : Session) : Res (option Credential) :=
  let auth := s_auth (data self) in
  match a_type auth with
  | None => Ok None
  | Some t =>
      if String.eqb t "" then Ok None
      else if String.eqb t "basic"
      then Ok (Some (HTTPBasicAuth (a_username auth) (a_password auth)))
      else if String.eqb t "digest"
      then Ok (Some (HTTPDigestAuth (a_username auth) (a_password auth)))
      else Raise (KeyError t)
  end.

Definition auth_record (cred : Credential) : AuthRecord :=
  {| a_type := Some (match cred with
                     | HTTPBasicAuth _ _ => "basic"
                     | HTTPDigestAuth _ _ => "digest"
                     end);
     a_username := cred_username cred;
     a_password := cred_password cred |}.

(** [Session.auth] (setter) *)
Definition Session_auth_set (cred : Credential) (self : Session) : Session :=
  with_data (set_auth (auth_record cred) (data self)) self.

End Sessions.
Export Sessions.

(** ** The request orchestrator and the management commands *)

Section Orchestrator.

(** The HTTP client, [urlparse(url).netloc] and the configuration
    directory of the config module are given from outside. *)
Variable client : ClientCall -> ClientOutcome.
Variable urlparse_netloc : string -> string.
Variable DEFAULT_CONFIG_DIR : string.

Definition DEFAULT_SESSIONS_DIR : string :=
  path_join DEFAULT_CONFIG_DIR SESSIONS_DIR_NAME.

(** [rsession.request(cookies=jar, **request_kwargs)] on a fresh
    [requests.Session()]: the call is logged, the client answers. *)
Definition rsession_request (jar : CookieJar) (request_kwargs : RequestKwargs)
  : M ClientOutcome :=
  fun w =>
    let call := {| call_cookies := jar; call_kwargs := request_kwargs |} in
    (Ok (client call), {| fs := fs w; sent := sent w ++ [call] |}).

(** [request_kwargs['headers'].get('Host', None) or
     urlparse(request_kwargs['url']).netloc.split('@')[-1]] *)
Definition target_host_name (request_kwargs : RequestKwargs) : string :=
  match rk_headers request_kwargs !! "Host" with
  | Some h =>
      if negb (String.eqb h "") then h
      else split_last "@" (urlparse_netloc (rk_url request_kwargs))
  | None => split_last "@" (urlparse_netloc (rk_url request_kwargs))
  end.

(** [headers.update(other)]: the keys of [other] with its values, the
    remaining keys of [headers] with theirs. *)
Definition headers_update (headers other : gmap string string)
  : gmap string string :=
  other ∪ headers.

(** [get_response(name, request_kwargs, config_dir, read_only)], run when
    the clock reads [now]. *)
Definition get_response (now : Z) (name : string)
    (request_kwargs : RequestKwargs) (config_dir : string)
    (read_only : bool) : M Response :=
  let sessions_dir := path_join config_dir SESSIONS_DIR_NAME in
  host ← Host_init (target_host_name request_kwargs) sessions_dir;
  session ← Session_init host name;
  session ← Session_load session;
  (* Update session headers with the request headers. *)
  let session :=
    with_data (set_headers (headers_update (s_headers (data session))
                                           (rk_headers request_kwargs))
                           (data session)) session in
  (* Use the merged headers for the request *)
  let request_kwargs := with_headers (s_headers (data session)) request_kwargs in
  sr ← match rk_auth request_kwargs with
       | Some auth => mret (Session_auth_set auth session, request_kwargs)
       | None =>
           stored ← lift (Session_auth session);
           match stored with
           | Some cred => mret (session, with_auth cred request_kwargs)
           | None => mret (session, request_kwargs)
           end
       end;
  let session := fst sr in
  let request_kwargs := snd sr in
  let '(jar, session) := Session_cookies now session in
  jar ← lift jar;
  outcome ← rsession_request jar request_kwargs;
  match outcome with
  | Raised e => raise e
  | Returned response cookies =>
      (* Existing sessions with `read_only=True` don't get updated. *)
      is_new ← Session_is_new session;
      if (is_new : bool) || negb read_only then
        let session := Session_cookies_set cookies session in
        _ ← Session_save session;
        mret response
      else mret response
  end.

(** [Host.__iter__]: the sessions yielded, and the exception that ends
    the generator when a file's stem does not pass [Session.__init__]. *)
Fixpoint Host_iter_from (self : Host) (fns : list string)
  : M (list Session * option Exn) :=
  match fns with
  | [] => mret ([], None)
  | fn :: rest =>
      let session_name := splitext_root fn in
      r ← attempt (Session_init self session_name);
      match r with
      | Ok s =>
          more ← Host_iter_from self rest;
          mret (s :: fst more, snd more)
      | Raise e => mret ([], Some e)
      end
  end.

Definition Host_iter (self : Host) : M (list Session * option Exn) :=
  path ← Host_path self;
  fns ← glob1_json path;
  Host_iter_from self (sorted fns).

(** [not session_name] for [None] or a string. *)
Definition not_name (session_name : option string) : bool :=
  match session_name with
  | None => true
  | Some s => String.eqb s ""
  end.

(** [command_session_delete(hostname, session_name=None)] *)
Definition command_session_delete (hostname : string)
    (session_name : option string) : M unit :=
  host ← Host_init hostname DEFAULT_SESSIONS_DIR;
  if not_name session_name then
    _ ← Host_delete host;
    session ← Session_new host session_name;
    Session_delete session
  else mret tt.

End Orchestrator.

(** ** Sample data *)

Module Sample.

Definition cookie (name value domain : string) (expires : option Z) : Cookie :=
  {| ck_version := Some 0%Z; ck_name := name; ck_value := Some value;
     ck_port := None; ck_port_specified := false;
     ck_domain := domain; ck_domain_specified := true;
     ck_domain_initial_dot := false;
     ck_path := "/"; ck_path_specified := true;
     ck_secure := false; ck_expires := expires; ck_discard := true;
     ck_comment := None; ck_comment_url := None; ck_rfc2109 := false;
     ck_rest := [] |}.

(** A jar holding cookies of one path per domain. *)
Definition jar_of (cs : list Cookie) : CookieJar :=
  fold_left (fun jar c => set_cookie c jar) cs empty_jar.

Definition kwargs (headers : gmap string string) (auth : option Credential)
  : RequestKwargs :=
  {| rk_headers := headers; rk_url := "http://example.org/get";
     rk_auth := auth; rk_other := [("method", VStr "GET")] |}.

Definition netloc (url : string) : string := "example.org".

Definition ok_response : Response := {| status_code := 200; text := "ok" |}.

(** A server that sets one cookie. *)
Definition server (c : ClientCall) : ClientOutcome :=
  Returned ok_response (jar_of [cookie "sid" "fresh" "example.org" None]).

(** A network that is down. *)
Definition unreachable (c : ClientCall) : ClientOutcome :=
  Raised (ConnectionError "connection refused").

Definition empty_world : World := {| fs := ∅; sent := [] |}.

Definition stored_session : SessionData :=
  {| s_headers := {[ "A" := "1"; "B" := "2" ]};
     s_cookies := encode_cookies (jar_of [cookie "sid" "old" "example.org" None]);
     s_auth := auth_record (HTTPBasicAuth (Some "u") (Some "pw")) |}.

(** A store with one session, [s1], of host [example.org] under
    [/cfg/sessions]. *)
Definition one_session_world : World :=
  {| fs := {[ "/cfg/sessions" :=
               {[ "example.org" :=
                    Directory {[ "s1.json" := Stored stored_session ]} ]} ]};
     sent := [] |}.

Definition example_host : Host :=
  {| host_name := "example.org"; root_dir := "/cfg/sessions" |}.

(** The session [s1] as [load] leaves it in memory. *)
Definition loaded_session : Session :=
  {| host := example_host; name := "s1"; data := stored_session |}.

(** A request that overrides [B] and adds [C]. *)
Definition request : RequestKwargs :=
  kwargs {[ "B" := "3"; "C" := "4" ]} None.

(** The same request with credentials of its own. *)
Definition request_with_auth : RequestKwargs :=
  kwargs {[ "B" := "3"; "C" := "4" ]}
         (Some (HTTPDigestAuth (Some "me") (Some "secret"))).

Definition merged_headers : gmap string string :=
  {[ "A" := "1"; "B" := "3"; "C" := "4" ]}.

(** The cookie of [stored_session] as the getter hands it to the
    client. *)
Definition sent_cookie : Cookie :=
  {| ck_version := Some 0%Z; ck_name := "sid"; ck_value := Some "old";
     ck_port := None; ck_port_specified := false;
     ck_domain := "example.org"; ck_domain_specified := true;
     ck_domain_initial_dot := false;
     ck_path := "/"; ck_path_specified := true;
     ck_secure := false; ck_expires := None; ck_discard := true;
     ck_comment := None; ck_comment_url := None; ck_rfc2109 := false;
     ck_rest := [("HttpOnly", None)] |}.

(** The call made for session [s1] with the given merged headers and
    credentials. *)
Definition call_with (headers : gmap string string) (auth : option Credential)
  : ClientCall :=
  {| call_cookies := [("example.org", [("/", [("sid", sent_cookie)])])];
     call_kwargs := kwargs headers auth |}.

(** Two cookies named [sid], of two domains. *)
Definition colliding_jar : CookieJar :=
  jar_of [cookie "sid" "a" "a.example" None;
          cookie "sid" "b" "b.example" None].

(** Two cookies of different names; the second expires at second 5. *)
Definition mixed_jar : CookieJar :=
  jar_of [cookie "sid" "a" "example.org" None;
          cookie "tmp" "b" "example.org" (Some 5%Z)].

(** The cookie the [server] sets, as the next read hands it on. *)
Definition fresh_cookie : Cookie :=
  {| ck_version := Some 0%Z; ck_name := "sid"; ck_value := Some "fresh";
     ck_port := None; ck_port_specified := false;
     ck_domain := "example.org"; ck_domain_specified := true;
     ck_domain_initial_dot := false;
     ck_path := "/"; ck_path_specified := true;
     ck_secure := false; ck_expires := None; ck_discard := true;
     ck_comment := None; ck_comment_url := None; ck_rfc2109 := false;
     ck_rest := [("HttpOnly", None)] |}.

(** A later request with a header of its own and no credentials. *)
Definition later_request : RequestKwargs := kwargs {[ "D" := "5" ]} None.

(** The call of that later request, after [request_with_auth] was saved. *)
Definition later_call : ClientCall :=
  {| call_cookies := [("example.org", [("/", [("sid", fresh_cookie)])])];
     call_kwargs :=
       kwargs {[ "A" := "1"; "B" := "3"; "C" := "4"; "D" := "5" ]}
              (Some (HTTPDigestAuth (Some "me") (Some "secret"))) |}.

(** A session file whose auth type no credential class answers to. *)
Definition odd_auth_session : SessionData :=
  {| s_headers := ∅; s_cookies := [];
     s_auth := {| a_type := Some "bearer"; a_username := Some "u";
                  a_password := None |} |}.

Definition odd_auth_world : World :=
  {| fs := {[ "/cfg/sessions" :=
               {[ "example.org" :=
                    Directory {[ "s1.json" := Stored odd_auth_session ]} ]} ]};
     sent := [] |}.

End Sample.

(** ** Vocabulary of the statements *)

(** The cookie last filed under a name, in iteration order. *)
Definition last_named {V} (n : string) (items : list (string * V)) : option V :=
  dict_get n (rev items).

(** One step of the setter's innermost loop. *)
Definition file_cookie (cookies : PyDict (gmap string Val)) (nc : string * Cookie)
  : PyDict (gmap string Val) :=
  dict_set (fst nc) (cookie_dict_of (snd nc)) cookies.

(** The cookie [create_cookie] makes of the entry that the setter wrote for
    [c] under the name [n]: the kept attributes as they were, the excluded
    ones at the constructor's defaults or computed anew. *)
Definition recreated (n : string) (c : Cookie) : Cookie :=
  {| ck_version := ck_version c;
     ck_name := n;
     ck_value := ck_value c;
     ck_port := ck_port c;
     ck_port_specified := opt_truthy (ck_port c);
     ck_domain := lower (ck_domain c);
     ck_domain_specified := negb (String.eqb (ck_domain c) "");
     ck_domain_initial_dot := startswith "." (ck_domain c);
     ck_path := ck_path c;
     ck_path_specified := negb (String.eqb (ck_path c) "");
     ck_secure := ck_secure c;
     ck_expires := ck_expires c;
     ck_discard := ck_discard c;
     ck_comment := None;
     ck_comment_url := None;
     ck_rfc2109 := ck_rfc2109 c;
     ck_rest := [("HttpOnly", None)] |}.

(** No two cookies of the jar share a name. *)
Definition distinct_names (jar : CookieJar) : Prop :=
  NoDup (map fst (jar_items jar)).

(** Every cookie of the jar is filed under its own name. *)
Definition filed_by_name (jar : CookieJar) : Prop :=
  ∀ n c, In (n, c) (jar_items jar) → ck_name c = n.

Definition colon : ascii := ":"%char.

(** A host name that goes through the directory name and back: it has no
    colon and [_(\d+)$] does not match it, or it is a colon-free prefix, one
    colon, and one or more digits. *)
Definition port_form (name : string) : Prop :=
  ((colon ∉ chars name) ∧ port_suffix (chars name) = None)
  ∨ (∃ p ds, chars name = p ++ colon :: ds
             ∧ (colon ∉ p) ∧ ds ≠ [] ∧ Forall (fun c => is_digit c = true) ds).

(** What [Host.all] yields from a list of names, as a function of the
    store. *)
Fixpoint hosts_of (root_dir : string) (f : FS) (names : list string)
  : list Host * option Exn :=
  match names with
  | [] => ([], None)
  | name :: rest =>
      if isdir {| dp_root := root_dir; dp_name := name |} f then
        if Host_VALID_NAME (re_sub_port name) then
          ({| host_name := re_sub_port name; root_dir := root_dir |}
             :: fst (hosts_of root_dir f rest),
           snd (hosts_of root_dir f rest))
        else ([], Some AssertionError)
      else hosts_of root_dir f rest
  end.

(** The directories of a list of names all carry a valid host name. *)
Definition all_valid (root : string) (f : FS) (names : list string) : Prop :=
  Forall (fun n => isdir {| dp_root := root; dp_name := n |} f = true →
                   Host_VALID_NAME (re_sub_port n) = true) names.

(** The host a request is for, and the file of its session. *)
Definition target_host (urlparse_netloc : string → string)
    (request_kwargs : RequestKwargs) (config_dir : string) : Host :=
  {| host_name := target_host_name urlparse_netloc request_kwargs;
     root_dir := path_join config_dir SESSIONS_DIR_NAME |}.

Definition session_file (h : Host) (name : string) : FilePath :=
  {| fp_dir := Host_dir h; fp_name := name +:+ ".json" |}.

(** The data [load] leaves in memory: the file's, or the defaults. *)
Definition loaded (p : FilePath) (f : FS) : SessionData :=
  match read_file p f with
  | Some (Stored d) => d
  | _ => defaults
  end.

(** [is_new]: no file at the path. *)
Definition absent (p : FilePath) (f : FS) : bool :=
  match read_file p f with
  | Some _ => false
  | None => true
  end.

(** The files of a directory, none when it is not there. *)
Definition files_of (p : DirPath) (f : FS) : gmap string FileContent :=
  match lookup_entry p f with
  | Some (Directory files) => files
  | _ => ∅
  end.

(** Writing a file into a directory of the store. *)
Definition write_file (p : FilePath) (c : FileContent) (f : FS) : FS :=
  set_entry (fp_dir p) (Directory (<[fp_name p := c]> (files_of (fp_dir p) f))) f.

(** The second half of [get_response]: the client call in its
    [try]/[except]/[else], for the session and the keyword arguments the
    first half has prepared. *)
Definition request_and_save (client : ClientCall → ClientOutcome) (now : Z)
    (read_only : bool) (session : Session) (request_kwargs : RequestKwargs)
  : M Response :=
  let '(jar, session) := Session_cookies now session in
  jar ← lift jar;
  outcome ← rsession_request client jar request_kwargs;
  match outcome with
  | Raised e => raise e
  | Returned response cookies =>
      is_new ← Session_is_new session;
      if (is_new : bool) || negb read_only then
        let session := Session_cookies_set cookies session in
        _ ← Session_save session;
        mret response
      else mret response
  end.

(** ** The management commands that print, exit or start the editor *)

Module Console.

(** What a command leaves behind besides the world: the lines it printed
    (one element for each [print]), what it wrote to [sys.stderr], and the
    commands it handed to [subprocess.call]. *)
Record Proc := mkProc {
  world : World;
  stdout : list string;
  stderr : list string;
  spawned : list (list string)
}.

(** A command returns, lets an exception through, or ends the process with
    [sys.exit(code)]. *)
Inductive Outcome (A : Type) :=
| Done (a : A)
| Failed (e : Exn)
| Exit (code : Z).
Arguments Done {A} a.
Arguments Failed {A} e.
Arguments Exit {A} code.

Definition Cmd (A : Type) : Type := Proc -> Outcome A * Proc.

#[export] Instance Cmd_ret : MRet Cmd := fun A a p => (Done a, p).
#[export] Instance Cmd_bind : MBind Cmd := fun A B k m p =>
  match m p with
  | (Done a, p') => k a p'
  | (Failed e, p') => (Failed e, p')
  | (Exit c, p') => (Exit c, p')
  end.

Definition with_world (w : World) (p : Proc) : Proc :=
  {| world := w; stdout := stdout p; stderr := stderr p; spawned := spawned p |}.

(** A computation on the world, run inside a command. *)
Definition run {A} (m : M A) : Cmd A :=
  fun p =>
    match m (world p) with
    | (Ok a, w) => (Done a, with_world w p)
    | (Raise e, w) => (Failed e, with_world w p)
    end.

(** [print(s)] *)
Definition print (s : string) : Cmd unit :=
  fun p => (Done tt, {| world := world p; stdout := stdout p ++ [s];
                        stderr := stderr p; spawned := spawned p |}).

(** [sys.stderr.write(s)] *)
Definition stderr_write (s : string) : Cmd unit :=
  fun p => (Done tt, {| world := world p; stdout := stdout p;
                        stderr := stderr p ++ [s]; spawned := spawned p |}).

(** [sys.exit(code)] *)
Definition sys_exit {A} (code : Z) : Cmd A := fun p => (Exit code, p).

(** The string of a path: [os.path.join] of its parts. *)
Definition dir_str (p : DirPath) : string := path_join (dp_root p) (dp_name p).
Definition file_str (p : FilePath) : string :=
  path_join (dir_str (fp_dir p)) (fp_name p).

(** [Host.verbose_name] *)
Definition Host_verbose_name (self : Host) : M string :=
  path ← Host_path self;
  mret (host_name self +:+ " " +:+ dir_str path).

(** [Session.verbose_name] *)
Definition Session_verbose_name (self : Session) : M string :=
  path ← Session_path self;
  mret (host_name (host self) +:+ " " +:+ name self +:+ " " +:+ file_str path).

(** [s.split()]: the words between runs of white space. *)
Definition is_space (c : ascii) : bool :=
  bool_decide (c ∈ [" "%char; "009"%char; "010"%char; "011"%char;
                    "012"%char; "013"%char]).

Fixpoint words_from (word : list ascii) (l : list ascii) : list string :=
  match l with
  | [] => match word with [] => [] | _ => [str (rev word)] end
  | c :: l' =>
      if is_space c then
        match word with
        | [] => words_from [] l'
        | _ => str (rev word) :: words_from [] l'
        end
      else words_from (c :: word) l'
  end.

Definition split_words (s : string) : list string := words_from [] (chars s).

End Console.
Export Console.

Section Commands.

(** The configuration directory of the config module, the text of a file
    on disk, the highlighter of the output module and the process that
    [subprocess.call] runs are given from outside. *)
Variable DEFAULT_CONFIG_DIR : string.
Variable file_text : FileContent -> string.
Variable process_body : string -> string.
Variable subprocess_call : list string -> FS -> Res FS.

(** The loop body of [command_session_list] over the files of one host:
    [for session in host: print(session.verbose_name)], the generator of
    [Host.__iter__] run one file at a time. *)
Fixpoint print_sessions_from (self : Host) (fns : list string) : Cmd unit :=
  match fns with
  | [] => mret tt
  | fn :: rest =>
      let session_name := splitext_root fn in
      session ← run (Session_init self session_name);
      v ← run (Session_verbose_name session);
      _ ← print v;
      print_sessions_from self rest
  end.

Definition print_sessions (self : Host) : Cmd unit :=
  path ← run (Host_path self);
  fns ← run (glob1_json path);
  print_sessions_from self (sorted fns).

(** [for host in Host.all(): for session in host: ...], the generator of
    [Host.all] run one name at a time. *)
Fixpoint print_hosts_from (root_dir : string) (names : list string) : Cmd unit :=
  match names with
  | [] => mret tt
  | name :: rest =>
      d ← run (os_path_isdir {| dp_root := root_dir; dp_name := name |});
      if (d : bool) then
        let real_name := re_sub_port name in
        host ← run (Host_init real_name root_dir);
        _ ← print_sessions host;
        print_hosts_from root_dir rest
      else print_hosts_from root_dir rest
  end.

(** [command_session_list(hostname=None)] *)
Definition command_session_list (hostname : option string) : Cmd unit :=
  if negb (not_name hostname) then
    match hostname with
    | Some h =>
        host ← run (Host_init h (DEFAULT_SESSIONS_DIR DEFAULT_CONFIG_DIR));
        print_sessions host
    | None => mret tt
    end
  else
    names ← run (glob1_all (DEFAULT_SESSIONS_DIR DEFAULT_CONFIG_DIR));
    print_hosts_from (DEFAULT_SESSIONS_DIR DEFAULT_CONFIG_DIR) (sorted names).

(** [codecs.open(path, encoding='utf8')] and [f.read()] *)
Definition read_text (p : FilePath) : M string :=
  c ← open_read p;
  match c with
  | Some c => mret (file_text c)
  | None => raise (OSError "ENOENT")
  end.

(** [command_session_show(hostname, session_name)] *)
Definition command_session_show (hostname session_name : string) : Cmd unit :=
  host ← run (Host_init hostname (DEFAULT_SESSIONS_DIR DEFAULT_CONFIG_DIR));
  session ← run (Session_init host session_name);
  path ← run (Session_path session);
  e ← run (os_path_exists path);
  if negb e then
    v ← run (Session_verbose_name session);
    _ ← stderr_write ("Session does not exist: " +:+ v +:+ String newline "");
    sys_exit 1
  else
    body ← run (read_text path);
    v ← run (Session_verbose_name session);
    _ ← print (v +:+ ":" +:+ String newline "");
    _ ← print (process_body body);
    print "".

(** [subprocess.call(command)]: the command is recorded and the process
    has its way with the store, or cannot be started. *)
Definition call_subprocess (command : list string) : Cmd unit :=
  fun p =>
    let p' := {| world := world p; stdout := stdout p; stderr := stderr p;
                 spawned := spawned p ++ [command] |} in
    match subprocess_call command (fs (world p)) with
    | Ok f => (Done tt, with_world (with_fs f (world p)) p')
    | Raise e => (Failed e, p')
    end.

(** [command_session_edit(hostname, session_name)] in the environment
    [environ]. *)
Definition command_session_edit (environ : gmap string string)
    (hostname session_name : string) : Cmd unit :=
  let editor := environ !! "EDITOR" in
  if not_name editor then
    _ ← stderr_write
          ("You need to configure the environment variable EDITOR."
           +:+ String newline "");
    sys_exit 1
  else
    host ← run (Host_init hostname (DEFAULT_SESSIONS_DIR DEFAULT_CONFIG_DIR));
    session ← run (Session_init host session_name);
    is_new ← run (Session_is_new session);
    _ ← (if (is_new : bool) then run (Session_save session) else mret tt);
    let command := split_words (default "" editor) in
    path ← run (Session_path session);
    let command := command ++ [file_str path] in
    call_subprocess command.

End Commands.

(** ** Sample data for the commands *)

Module Demo.

Definition text_of (c : FileContent) : string :=
  match c with
  | Stored _ => "{}"
  | Malformed t => t
  end.

Definition highlight (s : string) : string := s.

(** A process that has printed nothing yet, on the store with session
    [s1] of [example.org]. *)
Definition console : Proc :=
  {| world := Sample.one_session_world; stdout := []; stderr := [];
     spawned := [] |}.

Definition editor_env : gmap string string := {[ "EDITOR" := "vim -n" ]}.

(** An editor that is closed without saving. *)
Definition editor_quits (command : list string) (f : FS) : Res FS := Ok f.

End Demo.

(** * Properties *)

(** ** The string helpers on the module's own inputs *)

Example host_of_url_with_userinfo :
  split_last "@" "user:secret@example.org:8080" = "example.org:8080"
  ∧ split_last "@" "example.org" = "example.org".
Proof. by split. Qed.

Example valid_names :
  Host_VALID_NAME "example.org:8080" = true
  ∧ Session_VALID_NAME "example.org:8080" = false
  ∧ Session_VALID_NAME "my-session_1.0" = true
  ∧ Host_VALID_NAME "" = false
  ∧ Host_VALID_NAME "a/b" = false
  ∧ Host_VALID_NAME (String "h" (String newline "")) = true.
Proof. repeat split. Qed.

Example directory_names :
  replace_char ":" "_" "example.com:8080" = "example.com_8080"
  ∧ re_sub_port "example.com_8080" = "example.com:8080"
  ∧ re_sub_port "example.org" = "example.org"
  ∧ re_sub_port "my_host" = "my_host"
  ∧ re_sub_port "host_80" = "host:80"
  ∧ path_join "/cfg" SESSIONS_DIR_NAME = "/cfg/sessions"
  ∧ splitext_root "s1.json" = "s1"
  ∧ sorted ["b.json"; "a.json"; "B.json"] = ["B.json"; "a.json"; "b.json"].
Proof. repeat split. Qed.

(** ** Ordered dictionaries *)

Section dict_facts.
Context {V : Type}.
Implicit Types (d : PyDict V) (k : string) (v : V).

Lemma dict_get_set_eq d k v : dict_get k (dict_set k v d) = Some v.
Proof.
  induction d as [|[k' v'] d IH]; simpl.
  - by rewrite String.eqb_refl.
  - destruct (String.eqb k k') eqn:E; simpl.
    + by rewrite String.eqb_refl.
    + by rewrite E.
Qed.

Lemma dict_get_set_ne d k k' v :
  k ≠ k' → dict_get k' (dict_set k v d) = dict_get k' d.
Proof.
  intros Hne. induction d as [|[k0 v0] d IH]; simpl.
  - destruct (String.eqb k' k) eqn:E; [|done].
    apply String.eqb_eq in E. congruence.
  - destruct (String.eqb k k0) eqn:E; simpl.
    + apply String.eqb_eq in E. subst k0.
      destruct (String.eqb k' k) eqn:E'; [|done].
      apply String.eqb_eq in E'. congruence.
    + by rewrite IH.
Qed.

Lemma dict_get_None d k : dict_get k d = None ↔ k ∉ dict_keys d.
Proof.
  induction d as [|[k' v'] d IH]; simpl.
  - split; [intros _; apply not_elem_of_nil | done].
  - destruct (String.eqb k k') eqn:E.
    + apply String.eqb_eq in E. subst. split; [done|].
      intros H. exfalso. apply H. left.
    + apply String.eqb_neq in E. rewrite IH. rewrite not_elem_of_cons.
      naive_solver.
Qed.

Lemma dict_set_fresh d k v :
  k ∉ dict_keys d → dict_set k v d = d ++ [(k, v)].
Proof.
  induction d as [|[k' v'] d IH]; simpl; [done|].
  rewrite not_elem_of_cons. intros [Hne Hd].
  apply String.eqb_neq in Hne. rewrite Hne. by rewrite IH.
Qed.

Lemma dict_keys_set d k v :
  ∀ x, x ∈ dict_keys (dict_set k v d) ↔ x = k ∨ x ∈ dict_keys d.
Proof.
  intros x. induction d as [|[k' v'] d IH]; simpl.
  - rewrite list_elem_of_singleton. split; [auto|].
    intros [->|H]; [done|]. by apply not_elem_of_nil in H.
  - destruct (String.eqb k k') eqn:E; simpl.
    + apply String.eqb_eq in E. subst k'. rewrite !elem_of_cons. naive_solver.
    + rewrite !elem_of_cons, IH. naive_solver.
Qed.

Lemma dict_set_NoDup d k v :
  NoDup (dict_keys d) → NoDup (dict_keys (dict_set k v d)).
Proof.
  induction d as [|[k' v'] d IH]; simpl.
  - intros _. apply NoDup_singleton.
  - rewrite NoDup_cons. intros [Hk Hd].
    destruct (String.eqb k k') eqn:E; simpl.
    + apply String.eqb_eq in E. subst k'. by apply NoDup_cons.
    + apply String.eqb_neq in E. apply NoDup_cons. split; [|auto].
      change (k' ∉ dict_keys (dict_set k v d)).
      rewrite dict_keys_set. naive_solver.
Qed.

Lemma dict_get_app d1 d2 k :
  dict_get k (d1 ++ d2) =
    match dict_get k d1 with Some v => Some v | None => dict_get k d2 end.
Proof.
  induction d1 as [|[k' v'] d1 IH]; simpl; [done|].
  by destruct (String.eqb k k').
Qed.

Lemma dict_get_Some_elem d k v : dict_get k d = Some v → (k, v) ∈ d.
Proof.
  induction d as [|[k' v'] d IH]; simpl; [done|].
  destruct (String.eqb k k') eqn:E.
  - apply String.eqb_eq in E. intros [= ->]. subst. left.
  - intros H. right. auto.
Qed.

End dict_facts.

(** ** The cookie codec: encoding *)

Lemma fold_left_concat {A B} (f : A → B → A) (ls : list (list B)) (a : A) :
  fold_left f (concat ls) a = fold_left (fun a l => fold_left f l a) ls a.
Proof.
  revert a. induction ls as [|l ls IH]; intros a; simpl; [done|].
  by rewrite fold_left_app, IH.
Qed.

Lemma fold_left_map {A B C} (f : A → C → A) (g : B → C) (l : list B) (a : A) :
  fold_left f (map g l) a = fold_left (fun a x => f a (g x)) l a.
Proof. revert a. induction l as [|x l IH]; intros a; simpl; [done|]. by rewrite IH. Qed.

Lemma fold_left_pointwise {A B} (f g : A → B → A) (l : list B) (a : A) :
  (∀ a x, f a x = g a x) → fold_left f l a = fold_left g l a.
Proof.
  intros H. revert a. induction l as [|x l IH]; intros a; simpl; [done|].
  by rewrite H, IH.
Qed.

Lemma encode_cookies_flat (jar : CookieJar) :
  encode_cookies jar = fold_left file_cookie (jar_items jar) [].
Proof.
  unfold encode_cookies, jar_items.
  rewrite fold_left_concat, fold_left_map.
  apply fold_left_pointwise. intros cookies host.
  by rewrite fold_left_concat.
Qed.

Lemma last_named_cons {V} (n : string) (x : string * V) (items : list (string * V)) :
  last_named n (x :: items) =
    match last_named n items with
    | Some c => Some c
    | None => if String.eqb n (fst x) then Some (snd x) else None
    end.
Proof.
  unfold last_named. simpl. rewrite dict_get_app. destruct x as [k v]. simpl.
  by destruct (dict_get n (rev items)).
Qed.

Lemma file_cookies_get (items : list (string * Cookie)) acc (n : string) :
  dict_get n (fold_left file_cookie items acc) =
    match last_named n items with
    | Some c => Some (cookie_dict_of c)
    | None => dict_get n acc
    end.
Proof.
  revert acc. induction items as [|[k c] items IH]; intros acc; [done|].
  simpl. rewrite IH, last_named_cons. simpl.
  destruct (last_named n items); [done|].
  unfold file_cookie; simpl.
  destruct (String.eqb n k) eqn:E.
  - apply String.eqb_eq in E. subst. apply dict_get_set_eq.
  - apply String.eqb_neq in E. apply dict_get_set_ne. congruence.
Qed.

Lemma file_cookies_NoDup (items : list (string * Cookie)) acc :
  NoDup (dict_keys acc) → NoDup (dict_keys (fold_left file_cookie items acc)).
Proof.
  revert acc. induction items as [|x items IH]; intros acc H; [done|].
  simpl. apply IH. by apply dict_set_NoDup.
Qed.

Lemma file_cookies_keys (items : list (string * Cookie)) acc (n : string) :
  n ∈ dict_keys (fold_left file_cookie items acc)
  ↔ n ∈ map fst items ∨ n ∈ dict_keys acc.
Proof.
  revert acc. induction items as [|x items IH]; intros acc; simpl.
  - split; [auto|]. intros [H|H]; [|done]. by apply not_elem_of_nil in H.
  - rewrite IH. unfold file_cookie. rewrite dict_keys_set, elem_of_cons.
    naive_solver.
Qed.

(** When no two cookies share a name, the mapping is the jar's cookies in
    order, one entry each. *)
Lemma file_cookies_distinct (items : list (string * Cookie)) acc :
  NoDup (map fst items) → (∀ n, n ∈ map fst items → n ∉ dict_keys acc) →
  fold_left file_cookie items acc
  = acc ++ map (fun nc => (fst nc, cookie_dict_of (snd nc))) items.
Proof.
  revert acc. induction items as [|[k c] items IH]; intros acc Hnd Hfresh; simpl.
  - by rewrite app_nil_r.
  - apply NoDup_cons in Hnd as [Hk Hnd].
    replace (file_cookie acc (k, c)) with (acc ++ [(k, cookie_dict_of c)])
      by (unfold file_cookie; simpl; rewrite dict_set_fresh;
          [done | apply Hfresh; left]).
    rewrite IH; [by rewrite <- app_assoc | done |].
    intros n Hn. unfold dict_keys. rewrite map_app. simpl.
    rewrite elem_of_app, list_elem_of_singleton.
    intros [H| ->]; [|done].
    eapply Hfresh; [right; exact Hn | exact H].
Qed.

(** ** The cookie codec: decoding *)

Lemma cookies_loop_popped items jar r items' :
  cookies_loop items jar = (r, items') →
  items ≠ [] →
  ∃ n d rest, items' = (n, d) :: rest ∧ d !! "value" = None.
Proof.
  destruct items as [|[n d] rest]; [done|]. intros H _. simpl in H.
  unfold dict_pop in H. destruct (d !! "value") as [v|] eqn:Ev.
  - destruct (create_cookie n v (delete "value" d)) as [c|e].
    + destruct (cookies_loop rest (set_cookie c jar)) as [r' rest'].
      injection H as <- <-. eexists _, _, _. split; [done|]. apply lookup_delete_eq.
    + injection H as <- <-. eexists _, _, _. split; [done|]. apply lookup_delete_eq.
  - injection H as <- <-. by eexists _, _, _.
Qed.

Lemma cookies_loop_ok items jar jar' items' :
  cookies_loop items jar = (Ok jar', items') →
  items' = map (fun e => (fst e, delete "value" (snd e))) items
  ∧ Forall (fun e => is_Some (snd e !! "value")) items.
Proof.
  revert jar items'. induction items as [|[n d] rest IH]; intros jar items' H.
  - simpl in H. injection H as <- <-. by split.
  - simpl in H. unfold dict_pop in H. destruct (d !! "value") as [v|] eqn:Ev; [|done].
    destruct (create_cookie n v (delete "value" d)) as [c|e]; [|done].
    destruct (cookies_loop rest (set_cookie c jar)) as [r' rest'] eqn:El.
    injection H as -> <-. apply IH in El as [-> HF].
    split; [done|]. constructor; [by eexists|done].
Qed.

Lemma cookies_loop_missing_value n d rest jar :
  d !! "value" = None →
  fst (cookies_loop ((n, d) :: rest) jar) = Raise (KeyError "value").
Proof. intros H. simpl. unfold dict_pop. by rewrite H. Qed.

Lemma create_cookie_encoded (n : string) (c : Cookie) :
  dict_pop "value" (cookie_dict_of c)
  = Some (of_opt_str (ck_value c), delete "value" (cookie_dict_of c))
  ∧ create_cookie n (of_opt_str (ck_value c)) (delete "value" (cookie_dict_of c))
    = Ok (recreated n c).
Proof.
  destruct c as [ver nm val port ps dom ds did path pths sec exp disc com comu rfc rest].
  destruct ver, val, port, exp; split; vm_compute; reflexivity.
Qed.

Lemma cookies_loop_encoded (items : list (string * Cookie)) (jar : CookieJar) :
  cookies_loop (map (fun nc => (fst nc, cookie_dict_of (snd nc))) items) jar
  = (Ok (fold_left (fun j nc => set_cookie (recreated (fst nc) (snd nc)) j) items jar),
     map (fun nc => (fst nc, delete "value" (cookie_dict_of (snd nc)))) items).
Proof.
  revert jar. induction items as [|[n c] items IH]; intros jar; [done|].
  destruct (create_cookie_encoded n c) as [Hpop Hmk].
  cbn [map fst snd cookies_loop fold_left].
  rewrite Hpop, Hmk, IH. done.
Qed.

(** ** The jar *)

Lemma concat_dict_set {V X} (g : V → list X) (d : PyDict V) k v extra :
  g v ≡ₚ match dict_get k d with Some v0 => g v0 | None => [] end ++ extra →
  concat (map g (dict_values (dict_set k v d)))
  ≡ₚ concat (map g (dict_values d)) ++ extra.
Proof.
  induction d as [|[k' v'] d IH]; simpl; intros H.
  - by rewrite app_nil_r.
  - destruct (String.eqb k k') eqn:E; simpl.
    + rewrite H. rewrite <- !app_assoc. f_equiv. apply Permutation_app_comm.
    + rewrite IH by done. by rewrite app_assoc.
Qed.

Lemma dict_get_value {V} (d : PyDict V) k v :
  dict_get k d = Some v → In v (dict_values d).
Proof.
  intros H%dict_get_Some_elem. apply list_elem_of_In in H.
  unfold dict_values. apply in_map_iff. by exists (k, v).
Qed.

Lemma jar_items_path (jar : CookieJar) dom host path c3 x :
  dict_get dom jar = Some host → dict_get path host = Some c3 →
  In x c3 → In x (jar_items jar).
Proof.
  intros H1%dict_get_value H2%dict_get_value Hx.
  unfold jar_items. apply in_concat. exists (concat (dict_values host)). split.
  - apply in_map_iff. by exists host.
  - apply in_concat. by exists c3.
Qed.

Lemma host_items_set (host : PyDict (PyDict Cookie)) path c3 extra :
  c3 ≡ₚ or_empty (dict_get path host) ++ extra →
  concat (dict_values (dict_set path c3 host))
  ≡ₚ concat (dict_values host) ++ extra.
Proof.
  intros H.
  pose proof (concat_dict_set id host path c3 extra) as Hc.
  rewrite !map_id in Hc. apply Hc. exact H.
Qed.

Lemma jar_items_set_cookie (c : Cookie) (jar : CookieJar) :
  ¬ In (ck_name c) (map fst (jar_items jar)) →
  jar_items (set_cookie c jar) ≡ₚ jar_items jar ++ [(ck_name c, c)].
Proof.
  intros Hfresh. unfold set_cookie, jar_items.
  set (c2 := or_empty (dict_get (ck_domain c) jar)).
  set (c3 := or_empty (dict_get (ck_path c) c2)).
  assert (Hc3 : ck_name c ∉ dict_keys c3).
  { intros Hin. apply Hfresh. apply list_elem_of_In in Hin.
    unfold dict_keys in Hin. apply in_map_iff in Hin as [x [Hx Hin]].
    apply in_map_iff. exists x. split; [done|].
    unfold c3, c2 in Hin.
    destruct (dict_get (ck_domain c) jar) as [host|] eqn:E1; simpl in Hin; [|done].
    destruct (dict_get (ck_path c) host) as [p|] eqn:E2; simpl in Hin; [|done].
    eapply jar_items_path; eauto. }
  apply (concat_dict_set (fun host : PyDict (PyDict Cookie) => concat (dict_values host))).
  rewrite host_items_set with (extra := [(ck_name c, c)]).
  - unfold c2, or_empty. destruct (dict_get (ck_domain c) jar); reflexivity.
  - fold c3. by rewrite dict_set_fresh.
Qed.

Lemma jar_items_refill (items : list (string * Cookie)) (jar : CookieJar) :
  NoDup (map fst items) →
  (∀ n, In n (map fst items) → ¬ In n (map fst (jar_items jar))) →
  jar_items (fold_left (fun j nc => set_cookie (recreated (fst nc) (snd nc)) j)
                       items jar)
  ≡ₚ jar_items jar ++ map (fun nc => (fst nc, recreated (fst nc) (snd nc))) items.
Proof.
  revert jar. induction items as [|[n c] items IH]; intros jar Hnd Hfresh; simpl.
  - by rewrite app_nil_r.
  - apply NoDup_cons in Hnd as [Hn Hnd].
    assert (Hstep : jar_items (set_cookie (recreated n c) jar)
                    ≡ₚ jar_items jar ++ [(n, recreated n c)]).
    { apply (jar_items_set_cookie (recreated n c)). simpl.
      apply Hfresh. simpl. by left. }
    rewrite IH; [by rewrite Hstep, <- app_assoc | done |].
    intros m Hm Hin.
    assert (Hin' : In m (map fst (jar_items jar ++ [(n, recreated n c)]))).
    { eapply Permutation_in; [|exact Hin]. by apply Permutation_map. }
    rewrite map_app in Hin'. apply in_app_iff in Hin' as [Hin'|Hin'].
    + eapply Hfresh; [right; exact Hm | exact Hin'].
    + simpl in Hin'. destruct Hin' as [<-|[]].
      apply Hn. by apply list_elem_of_In.
Qed.

Lemma filter_concat {X} (P : X → Prop) `{∀ x, Decision (P x)} (ls : list (list X)) :
  filter P (concat ls) = concat (map (filter P) ls).
Proof.
  induction ls as [|l ls IH]; simpl; [done|]. by rewrite filter_app, IH.
Qed.

Lemma jar_items_clear_expired (now : Z) (jar : CookieJar) :
  jar_items (clear_expired_cookies now jar)
  = filter (fun kv => is_expired now (snd kv) = false) (jar_items jar).
Proof.
  unfold jar_items, clear_expired_cookies, dict_values, map_values.
  rewrite filter_concat, !map_map. f_equal.
  apply map_ext. intros [dom host]. simpl.
  rewrite filter_concat, !map_map. done.
Qed.

(** ** The cookie codec: claims *)

(** C8. The setter keys the mapping by cookie name alone: the entry under a
    name is the one of the cookie that comes last under that name in the
    jar's iteration order (later cookies overwrite earlier ones, whatever
    their domain and path), each name of the jar has an entry, and no name
    has two. *)
Theorem cookies_setter_keyed_by_name (jar : CookieJar) (self : Session) :
  let cookies := s_cookies (data (Session_cookies_set jar self)) in
  (∀ n, dict_get n cookies = cookie_dict_of <$> last_named n (jar_items jar))
  ∧ NoDup (dict_keys cookies)
  ∧ (∀ n, n ∈ dict_keys cookies ↔ In n (map fst (jar_items jar))).
Proof.
  simpl. rewrite encode_cookies_flat. split; [|split].
  - intros n. rewrite file_cookies_get. by destruct (last_named n (jar_items jar)).
  - apply file_cookies_NoDup. constructor.
  - intros n. rewrite file_cookies_keys, list_elem_of_In. split; [|auto].
    intros [H|H]; [done|]. by apply not_elem_of_nil in H.
Qed.

(** Two cookies named [sid] of two domains leave one entry, the later. *)
Example cookies_setter_collision :
  s_cookies (data (Session_cookies_set Sample.colliding_jar Sample.loaded_session))
  = [("sid", cookie_dict_of (Sample.cookie "sid" "b" "b.example" None))].
Proof. reflexivity. Qed.

(** C4 (amended). For a jar in which no two cookies share a name, writing
    it with the setter and reading it back with the getter succeeds and
    yields a jar with the same (name, value) pairs as the original has once
    its expired cookies are purged; the jar read back holds no expired
    cookie. *)
Theorem cookies_roundtrip (now : Z) (jar : CookieJar) (self : Session) :
  distinct_names jar → filed_by_name jar →
  ∃ jar',
    fst (Session_cookies now (Session_cookies_set jar self)) = Ok jar'
    ∧ (∀ nv, In nv (jar_pairs jar')
             ↔ In nv (jar_pairs (clear_expired_cookies now jar)))
    ∧ (∀ n c, In (n, c) (jar_items jar') → is_expired now c = false).
Proof.
  intros Hnd Hname.
  unfold Session_cookies, Session_cookies_set. simpl.
  rewrite encode_cookies_flat.
  rewrite file_cookies_distinct; [|exact Hnd|intros n _; apply not_elem_of_nil].
  simpl. rewrite cookies_loop_encoded. simpl.
  eexists. split; [reflexivity|].
  assert (Hperm : jar_items
            (fold_left (fun j nc => set_cookie (recreated (fst nc) (snd nc)) j)
                       (jar_items jar) empty_jar)
          ≡ₚ map (fun nc => (fst nc, recreated (fst nc) (snd nc))) (jar_items jar)).
  { rewrite jar_items_refill; [done|exact Hnd|]. intros n _ []. }
  split.
  - intros [n v]. unfold jar_pairs. rewrite !jar_items_clear_expired.
    rewrite !in_map_iff. split.
    + intros [[k c'] [Heq Hin]]. simpl in Heq.
      apply list_elem_of_In, list_elem_of_filter in Hin as [Hexp Hin].
      apply list_elem_of_In in Hin.
      eapply Permutation_in in Hin; [|exact Hperm].
      apply in_map_iff in Hin as [[k0 c] [Hrc Hin]]. simpl in Hrc.
      injection Hrc as -> <-. simpl in *.
      exists (k, c). simpl. split.
      * injection Heq as <- <-. by rewrite (Hname _ _ Hin).
      * apply list_elem_of_In, list_elem_of_filter. split; [exact Hexp|].
        by apply list_elem_of_In.
    + intros [[k c] [Heq Hin]]. simpl in Heq.
      apply list_elem_of_In, list_elem_of_filter in Hin as [Hexp Hin].
      apply list_elem_of_In in Hin.
      exists (k, recreated k c). simpl. split.
      * injection Heq as <- <-. by rewrite (Hname _ _ Hin).
      * apply list_elem_of_In, list_elem_of_filter. split; [exact Hexp|].
        apply list_elem_of_In.
        eapply Permutation_in; [symmetry; exact Hperm|].
        apply in_map_iff. by exists (k, c).
  - intros n c Hin. rewrite jar_items_clear_expired in Hin.
    by apply list_elem_of_In, list_elem_of_filter in Hin as [Hexp _].
Qed.

Lemma cookies_roundtrip_witness :
  ∃ jar',
    fst (Session_cookies 10 (Session_cookies_set Sample.mixed_jar Sample.loaded_session))
    = Ok jar'
    ∧ (∀ nv, In nv (jar_pairs jar')
             ↔ In nv (jar_pairs (clear_expired_cookies 10 Sample.mixed_jar)))
    ∧ (∀ n c, In (n, c) (jar_items jar') → is_expired 10 c = false).
Proof.
  apply (cookies_roundtrip 10 Sample.mixed_jar Sample.loaded_session).
  - unfold distinct_names. apply (bool_decide_unpack _). vm_compute. exact I.
  - intros n c H. vm_compute in H. destruct H as [H|[H|[]]]; injection H as <- <-; reflexivity.
Defined.

(** C4, as stated, fails on a jar with two cookies of one name: both are
    unexpired, and only the later one comes back. *)
Lemma cookies_roundtrip_collision :
  ∃ jar',
    fst (Session_cookies 0 (Session_cookies_set Sample.colliding_jar Sample.loaded_session))
    = Ok jar'
    ∧ In ("sid", Some "a") (jar_pairs (clear_expired_cookies 0 Sample.colliding_jar))
    ∧ ¬ In ("sid", Some "a") (jar_pairs jar').
Proof.
  eexists. split; [vm_compute; reflexivity|]. split.
  - vm_compute. by left.
  - vm_compute. intros [H|[]]. discriminate H.
Qed.

(** C10. Reading [cookies] changes the stored mapping: a read that returns
    has popped ['value'] out of every stored entry (each had it, none has
    it afterwards), and whenever the stored mapping is not empty a second
    read of the same in-memory session raises [KeyError] for ['value']. *)
Theorem cookies_getter_pops_value (now now' : Z) (self : Session) :
  s_cookies (data self) ≠ [] →
  fst (Session_cookies now' (snd (Session_cookies now self)))
  = Raise (KeyError "value")
  ∧ (∀ jar, fst (Session_cookies now self) = Ok jar →
       Forall (fun e => is_Some (snd e !! "value")) (s_cookies (data self))
       ∧ s_cookies (data (snd (Session_cookies now self)))
         = map (fun e => (fst e, delete "value" (snd e))) (s_cookies (data self))
       ∧ snd (Session_cookies now self) ≠ self).
Proof.
  intros Hne. unfold Session_cookies.
  destruct (cookies_loop (s_cookies (data self)) empty_jar) as [r stored] eqn:E.
  simpl. split.
  - destruct (cookies_loop_popped _ _ _ _ E Hne) as (n & d & rest & -> & Hd).
    pose proof (cookies_loop_missing_value n d rest empty_jar Hd) as H.
    destruct (cookies_loop ((n, d) :: rest) empty_jar) as [r2 s2].
    simpl in H. by rewrite H.
  - intros jar Hjar. destruct r as [j|e]; [|done].
    apply cookies_loop_ok in E as [-> HF]. split; [done|]. split; [done|].
    intros Heq. apply (f_equal (fun s => s_cookies (data s))) in Heq. simpl in Heq.
    destruct (s_cookies (data self)) as [|[n d] rest]; [done|].
    apply Forall_cons in HF as [[v Hv] _]. simpl in *.
    injection Heq as Hd _. rewrite <- Hd in Hv. by rewrite lookup_delete_eq in Hv.
Qed.

Lemma cookies_getter_pops_value_witness :
  fst (Session_cookies 1 (snd (Session_cookies 0 Sample.loaded_session)))
  = Raise (KeyError "value")
  ∧ (∀ jar, fst (Session_cookies 0 Sample.loaded_session) = Ok jar →
       Forall (fun e => is_Some (snd e !! "value"))
              (s_cookies (data Sample.loaded_session))
       ∧ s_cookies (data (snd (Session_cookies 0 Sample.loaded_session)))
         = map (fun e => (fst e, delete "value" (snd e)))
               (s_cookies (data Sample.loaded_session))
       ∧ snd (Session_cookies 0 Sample.loaded_session) ≠ Sample.loaded_session).
Proof.
  apply (cookies_getter_pops_value 0 1 Sample.loaded_session).
  vm_compute. discriminate.
Defined.

(** ** Host directories *)

Lemma chars_str (l : list ascii) : chars (str l) = l.
Proof. apply list_ascii_of_string_of_list_ascii. Qed.

Lemma str_chars (s : string) : str (chars s) = s.
Proof. apply string_of_list_ascii_of_string. Qed.

Lemma map_colon_free (l : list ascii) :
  colon ∉ l →
  map (fun c => if Ascii.eqb c ":" then "_"%char else c) l = l.
Proof.
  induction l as [|c l IH]; simpl; [done|].
  rewrite not_elem_of_cons. intros [Hc Hl].
  destruct (Ascii.eqb c ":") eqn:E.
  - apply Ascii.eqb_eq in E. unfold colon in Hc. congruence.
  - by rewrite IH.
Qed.

Lemma map_colon_digits (l : list ascii) :
  Forall (fun c => is_digit c = true) l →
  map (fun c => if Ascii.eqb c ":" then "_"%char else c) l = l.
Proof.
  intros H. apply map_colon_free. intros Hin.
  rewrite Forall_forall in H. by apply H in Hin.
Qed.

Lemma span_digits_stop (ds rest : list ascii) (c : ascii) :
  Forall (fun c => is_digit c = true) ds → is_digit c = false →
  span_digits (ds ++ c :: rest) = (ds, c :: rest).
Proof.
  intros Hds Hc. induction Hds as [|d ds Hd Hds IH]; simpl.
  - by rewrite Hc.
  - by rewrite Hd, IH.
Qed.

Lemma re_sub_port_replace (name : string) :
  port_form name → re_sub_port (replace_char ":" "_" name) = name.
Proof.
  unfold re_sub_port, replace_char. rewrite chars_str.
  intros [[Hcolon Hnone]|(p & ds & Hname & Hp & Hne & Hds)].
  - rewrite map_colon_free by done. by rewrite Hnone, str_chars.
  - rewrite Hname, map_app. cbn [map]. rewrite map_colon_free, map_colon_digits by done.
    change (if Ascii.eqb colon ":" then "_"%char else colon) with "_"%char.
    unfold port_suffix. rewrite rev_app_distr. cbn [rev]. rewrite <- app_assoc. cbn [app].
    assert (Hrds : Forall (fun c => is_digit c = true) (rev ds)).
    { rewrite Forall_forall in *. intros c Hc. apply Hds.
      apply list_elem_of_In. apply list_elem_of_In, in_rev in Hc. done. }
    destruct (rev ds) as [|d rds] eqn:Erev.
    { apply (f_equal (@rev ascii)) in Erev. rewrite rev_involutive in Erev. done. }
    cbn [app]. apply Forall_cons in Hrds as Hd. destruct Hd as [Hd Hrds'].
    assert (Hnl : Ascii.eqb d newline = false).
    { apply Ascii.eqb_neq. intros ->. done. }
    rewrite Hnl.
    change (d :: rds ++ "_"%char :: rev p) with ((d :: rds) ++ "_"%char :: rev p).
    rewrite span_digits_stop by done.
    cbn. rewrite <- (str_chars name) at 1. unfold str. f_equal.
    rewrite Hname.
    change (rev (rds ++ ":"%char :: rev p) ++ [d])
      with (rev (d :: rds ++ [":"%char] ++ rev p)).
    change (d :: rds ++ [":"%char] ++ rev p) with ((d :: rds) ++ [":"%char] ++ rev p).
    rewrite <- Erev.
    rewrite !rev_app_distr, !rev_involutive. by rewrite <- app_assoc.
Qed.


(** ** The store *)

Lemma lookup_entry_set_entry (p q : DirPath) (e : Entry) (f : FS) :
  lookup_entry q (set_entry p e f)
  = if decide (dp_root p = dp_root q ∧ dp_name p = dp_name q)
    then Some e else lookup_entry q f.
Proof.
  unfold lookup_entry, set_entry, root_entries.
  destruct (decide (dp_root p = dp_root q)) as [Hr|Hr].
  - rewrite Hr, lookup_insert_eq.
    destruct (decide (dp_name p = dp_name q)) as [Hn|Hn].
    + rewrite Hn, lookup_insert_eq. by rewrite decide_True.
    + rewrite lookup_insert_ne by done. rewrite decide_False by tauto.
      by destruct (f !! dp_root q).
  - rewrite lookup_insert_ne by done. by rewrite decide_False by tauto.
Qed.

Lemma lookup_entry_makedirs (p q : DirPath) (f : FS) :
  lookup_entry q (makedirs p f)
  = match lookup_entry q f with
    | Some e => Some e
    | None =>
        if decide (dp_root p = dp_root q ∧ dp_name p = dp_name q)
        then Some (Directory ∅) else None
    end.
Proof.
  unfold makedirs. destruct (lookup_entry p f) as [e|] eqn:E.
  - destruct (lookup_entry q f) as [e'|] eqn:E'; [done|].
    case_decide as H; [|done]. destruct H as [Hr Hn].
    unfold lookup_entry in *. rewrite Hr, Hn in E. congruence.
  - rewrite lookup_entry_set_entry. case_decide as H.
    + destruct H as [Hr Hn]. unfold lookup_entry in *. rewrite Hr, Hn in E.
      by rewrite E.
    + by destruct (lookup_entry q f).
Qed.

Lemma makedirs_idem (p : DirPath) (f : FS) :
  makedirs p (makedirs p f) = makedirs p f.
Proof.
  unfold makedirs at 1. rewrite lookup_entry_makedirs.
  destruct (lookup_entry p f); [done|]. by rewrite decide_True.
Qed.

Lemma read_file_makedirs (p : DirPath) (q : FilePath) (f : FS) :
  read_file q (makedirs p f) = read_file q f.
Proof.
  unfold read_file. rewrite lookup_entry_makedirs.
  destruct (lookup_entry (fp_dir q) f); [done|]. by case_decide.
Qed.

Lemma elem_of_listdir (root n : string) (f : FS) :
  In n (listdir root f) ↔ is_Some (lookup_entry {| dp_root := root; dp_name := n |} f).
Proof.
  unfold listdir, lookup_entry, root_entries. simpl.
  rewrite in_map_iff. split.
  - intros [[k e] [<- Hin]]. apply list_elem_of_In, elem_of_map_to_list in Hin.
    simpl. destruct (f !! root); [by eexists|]. by rewrite lookup_empty in Hin.
  - intros [e He]. exists (n, e). split; [done|].
    apply list_elem_of_In, elem_of_map_to_list.
    by destruct (f !! root).
Qed.

(** ** Enumerating hosts *)

Lemma Host_path_run (h : Host) (w : World) :
  Host_path h w = (Ok (Host_dir h), with_fs (makedirs (Host_dir h) (fs w)) w).
Proof. reflexivity. Qed.

Lemma Host_init_run (name root : string) (w : World) :
  Host_init name root w
  = if Host_VALID_NAME name
    then (Ok {| host_name := name; root_dir := root |}, w)
    else (Raise AssertionError, w).
Proof. unfold Host_init, assert. by destruct (Host_VALID_NAME name). Qed.

Lemma Host_all_from_run (root : string) (names : list string) (w : World) :
  Host_all_from root names w = (Ok (hosts_of root (fs w) names), w).
Proof.
  induction names as [|n names IH]; [done|].
  cbn [Host_all_from hosts_of].
  unfold mbind, M_bind, os_path_isdir, get_fs, mret, M_ret, attempt. simpl.
  destruct (isdir _ (fs w)); [|exact IH].
  rewrite Host_init_run. destruct (Host_VALID_NAME (re_sub_port n)); [|done].
  fold (Host_all_from root names). rewrite IH. done.
Qed.

Lemma Host_all_run (root : string) (w : World) :
  Host_all root w
  = (Ok (hosts_of root (fs w)
           (sorted (filter (fun n => hidden n = false) (listdir root (fs w))))), w).
Proof.
  unfold Host_all, glob1_all, mbind, M_bind, get_fs, mret, M_ret. simpl.
  apply Host_all_from_run.
Qed.

Lemma hosts_of_complete (root : string) (f : FS) (names : list string) :
  snd (hosts_of root f names) = None → all_valid root f names.
Proof.
  induction names as [|n names IH]; simpl; [constructor|].
  destruct (isdir _ f) eqn:Ed.
  - destruct (Host_VALID_NAME (re_sub_port n)) eqn:Ev; simpl; [|done].
    intros H. constructor; [done|]. by apply IH.
  - intros H. constructor; [congruence|]. by apply IH.
Qed.

Lemma hosts_of_valid (root : string) (f : FS) (names : list string) :
  all_valid root f names →
  snd (hosts_of root f names) = None
  ∧ ∀ n, In n names → isdir {| dp_root := root; dp_name := n |} f = true →
         In {| host_name := re_sub_port n; root_dir := root |}
            (fst (hosts_of root f names)).
Proof.
  induction 1 as [|n names Hn Hall IH]; simpl; [by split|].
  destruct IH as [IH1 IH2].
  destruct (isdir {| dp_root := root; dp_name := n |} f) eqn:Ed.
  - rewrite Hn by done. simpl. split; [done|].
    intros m [<-|Hm] Hd; [by left|]. right. by apply IH2.
  - split; [done|]. intros m [<-|Hm] Hd; [congruence|]. by apply IH2.
Qed.

Lemma hidden_replace (name : string) :
  hidden (replace_char ":" "_" name) = hidden name.
Proof.
  destruct name as [|c s]; [done|].
  unfold hidden, startswith, replace_char. rewrite chars_str. simpl.
  destruct (Ascii.eqb c ":") eqn:E; [|done].
  apply Ascii.eqb_eq in E. by subst c.
Qed.

Lemma sorted_perm (l : list string) : sorted l ≡ₚ l.
Proof. unfold sorted. apply merge_sort_Permutation. Qed.

Lemma all_valid_perm (root : string) (f : FS) (l l' : list string) :
  l ≡ₚ l' → all_valid root f l → all_valid root f l'.
Proof. unfold all_valid. by intros ->. Qed.

(** C5 (amended). A host name [example.com:8080] has the directory name
    [example.com_8080]; for every valid host name that does not begin with
    a dot and is either free of colons and of a trailing [_digits], or a
    colon-free prefix followed by one colon and digits to the end, deriving
    the path and then enumerating the hosts of the root yields the host
    under its original name (the root's other directories carrying valid
    names, and no regular file standing in the directory's place). *)
Theorem host_path_then_all (name root : string) (w : World) (others : list Host) :
  Host_VALID_NAME name = true →
  hidden name = false →
  port_form name →
  (∀ t, lookup_entry (Host_dir {| host_name := name; root_dir := root |}) (fs w)
        ≠ Some (RegularFile t)) →
  fst (Host_all root w) = Ok (others, None) →
  dp_name (Host_dir {| host_name := "example.com:8080"; root_dir := root |})
  = "example.com_8080"
  ∧ ∃ hosts,
      fst (Host_all root (snd (Host_path {| host_name := name; root_dir := root |} w)))
      = Ok (hosts, None)
      ∧ In {| host_name := name; root_dir := root |} hosts.
Proof.
  intros Hvalid Hhid Hform Hfile Hall. split; [reflexivity|].
  set (h := {| host_name := name; root_dir := root |}) in *.
  rewrite Host_path_run, Host_all_run. cbn [fst snd]. rewrite Host_all_run in Hall.
  cbn [fst] in Hall. cbn [with_fs fs].
  set (f := fs w) in *. set (f1 := makedirs (Host_dir h) f).
  assert (Hdir : isdir (Host_dir h) f1 = true).
  { unfold isdir, f1. rewrite lookup_entry_makedirs.
    destruct (lookup_entry (Host_dir h) f) as [[files|t]|] eqn:E; [done| |].
    - by destruct (Hfile t).
    - by rewrite decide_True. }
  assert (Hw : all_valid root f (filter (fun n => hidden n = false) (listdir root f))).
  { eapply all_valid_perm; [apply sorted_perm|].
    apply hosts_of_complete. injection Hall as Hall.
    by apply (f_equal snd) in Hall. }
  assert (Hw1 : all_valid root f1
                  (sorted (filter (fun n => hidden n = false) (listdir root f1)))).
  { eapply all_valid_perm; [symmetry; apply sorted_perm|].
    unfold all_valid. apply Forall_forall. intros n Hn Hd.
    apply list_elem_of_filter in Hn as [Hnh Hn].
    destruct (decide (dp_name (Host_dir h) = n)) as [<-|Hne].
    - simpl. by rewrite re_sub_port_replace.
    - assert (Hsame : lookup_entry {| dp_root := root; dp_name := n |} f1
                      = lookup_entry {| dp_root := root; dp_name := n |} f).
      { unfold f1. rewrite lookup_entry_makedirs.
        destruct (lookup_entry {| dp_root := root; dp_name := n |} f); [done|].
        rewrite decide_False; [done|]. simpl. tauto. }
      unfold all_valid in Hw. rewrite Forall_forall in Hw. apply (Hw n).
      + apply list_elem_of_filter. split; [done|].
        apply list_elem_of_In, elem_of_listdir. rewrite <- Hsame.
        unfold isdir in Hd. destruct (lookup_entry _ f1); [by eexists|done].
      + unfold isdir in *. by rewrite <- Hsame. }
  destruct (hosts_of_valid _ _ _ Hw1) as [Hnone Hin].
  eexists. split.
  - f_equal. apply injective_projections; [reflexivity|exact Hnone].
  - pose proof (Hin (dp_name (Host_dir h))) as Hh.
    cbn [Host_dir dp_name host_name h] in Hh.
    rewrite (re_sub_port_replace name Hform) in Hh.
    apply Hh; [|exact Hdir].
    eapply Permutation_in; [symmetry; apply sorted_perm|].
    apply list_elem_of_In, list_elem_of_filter. split.
    + simpl. by rewrite hidden_replace.
    + apply list_elem_of_In, elem_of_listdir.
      assert (Hsome : is_Some (lookup_entry (Host_dir h) f1)).
      { unfold isdir in Hdir.
        destruct (lookup_entry (Host_dir h) f1); [by eexists|done]. }
      exact Hsome.
Qed.

Lemma host_path_then_all_witness :
  dp_name (Host_dir {| host_name := "example.com:8080"; root_dir := "/cfg/sessions" |})
  = "example.com_8080"
  ∧ ∃ hosts,
      fst (Host_all "/cfg/sessions"
             (snd (Host_path {| host_name := "example.com:8080";
                                root_dir := "/cfg/sessions" |}
                             Sample.one_session_world)))
      = Ok (hosts, None)
      ∧ In {| host_name := "example.com:8080"; root_dir := "/cfg/sessions" |} hosts.
Proof.
  apply (host_path_then_all "example.com:8080" "/cfg/sessions"
           Sample.one_session_world
           [{| host_name := "example.org"; root_dir := "/cfg/sessions" |}]).
  - reflexivity.
  - reflexivity.
  - right. exists (chars "example.com"), (chars "8080").
    split; [reflexivity|]. split; [|split].
    + apply (bool_decide_unpack _). vm_compute. exact I.
    + discriminate.
    + repeat constructor.
  - intros t. vm_compute. discriminate.
  - vm_compute. reflexivity.
Defined.

(** C5, as stated, fails on a valid host name without a colon that ends in
    an underscore and digits: the enumeration gives it a port. *)
Lemma host_path_then_all_underscore :
  Host_VALID_NAME "host_80" = true
  ∧ (colon ∉ chars "host_80")
  ∧ fst (Host_all "/cfg/sessions"
           (snd (Host_path {| host_name := "host_80"; root_dir := "/cfg/sessions" |}
                           Sample.empty_world)))
    = Ok ([{| host_name := "host:80"; root_dir := "/cfg/sessions" |}], None)
  ∧ ¬ In {| host_name := "host_80"; root_dir := "/cfg/sessions" |}
         [{| host_name := "host:80"; root_dir := "/cfg/sessions" |}].
Proof.
  split; [reflexivity|]. split; [|split].
  - apply (bool_decide_unpack _). vm_compute. exact I.
  - vm_compute. reflexivity.
  - intros [H|[]]. discriminate H.
Qed.

(** ** Running the session methods *)

Lemma Session_init_run (h : Host) (n : string) (w : World) :
  Session_init h n w
  = if Session_VALID_NAME n
    then (Ok {| host := h; name := n; data := defaults |}, w)
    else (Raise AssertionError, w).
Proof. unfold Session_init, assert. by destruct (Session_VALID_NAME n). Qed.

Lemma Session_load_run (s : Session) (w : World) :
  Session_load s w
  = let w1 := with_fs (makedirs (Host_dir (host s)) (fs w)) w in
    let p := session_file (host s) (name s) in
    match lookup_entry (Host_dir (host s)) (fs w1) with
    | Some (RegularFile _) => (Raise (OSError "ENOTDIR"), w1)
    | _ =>
        match read_file p (fs w1) with
        | None => (Ok s, w1)
        | Some (Stored d) => (Ok (with_data d s), w1)
        | Some (Malformed _) => (Raise ValueError, w1)
        end
    end.
Proof.
  unfold Session_load, Session_path, Session_directory, open_read, mbind, M_bind,
    mret, M_ret, get_fs, raise.
  rewrite Host_path_run. cbn [fs with_fs fp_dir].
  destruct (lookup_entry (Host_dir (host s)) (makedirs (Host_dir (host s)) (fs w)))
    as [[files|t]|] eqn:E; cbn; try done.
  - unfold read_file, session_file. cbn. rewrite E.
    by destruct (files !! (name s +:+ ".json")) as [[d|t]|].
  - unfold read_file, session_file. cbn. by rewrite E.
Qed.

Lemma Session_is_new_run (s : Session) (w : World) :
  Session_is_new s w
  = let w1 := with_fs (makedirs (Host_dir (host s)) (fs w)) w in
    (Ok (absent (session_file (host s) (name s)) (fs w1)), w1).
Proof.
  unfold Session_is_new, Session_path, Session_directory, os_path_exists, mbind,
    M_bind, mret, M_ret, get_fs, absent.
  rewrite Host_path_run. cbn.
  by destruct (read_file _ _).
Qed.

Lemma Session_save_run (s : Session) (w : World) :
  Session_save s w
  = let w1 := with_fs (makedirs (Host_dir (host s)) (fs w)) w in
    let p := session_file (host s) (name s) in
    match lookup_entry (Host_dir (host s)) (fs w1) with
    | Some (Directory _) => (Ok tt, with_fs (write_file p (Stored (data s)) (fs w1)) w1)
    | Some (RegularFile _) => (Raise (OSError "ENOTDIR"), w1)
    | None => (Raise (OSError "ENOENT"), w1)
    end.
Proof.
  unfold Session_save, Session_path, Session_directory, open_write, mbind, M_bind,
    mret, M_ret, get_fs, put_fs, raise, write_file, files_of.
  rewrite Host_path_run. cbn.
  by destruct (lookup_entry (Host_dir (host s)) (makedirs (Host_dir (host s)) (fs w)))
    as [[files|t]|].
Qed.

(** ** Running the orchestrator *)

Lemma Session_load_cases (h : Host) (n : string) (w : World) :
  let s := {| host := h; name := n; data := defaults |} in
  let f1 := makedirs (Host_dir h) (fs w) in
  (∃ e, Session_load s w = (Raise e, with_fs f1 w))
  ∨ (Session_load s w
     = (Ok {| host := h; name := n; data := loaded (session_file h n) (fs w) |},
        with_fs f1 w)
     ∧ ∃ files, lookup_entry (Host_dir h) f1 = Some (Directory files)).
Proof.
  intros s f1. rewrite Session_load_run. cbn [host name fs with_fs s].
  unfold loaded. rewrite read_file_makedirs. fold f1.
  assert (Hsome : is_Some (lookup_entry (Host_dir h) f1)).
  { unfold f1. rewrite lookup_entry_makedirs.
    destruct (lookup_entry (Host_dir h) (fs w)); [by eexists|].
    rewrite decide_True by done. by eexists. }
  destruct Hsome as [[files|t] ->]; [|left; by eexists].
  destruct (read_file (session_file h n) (fs w)) as [[d|t]|].
  - right. split; [done|by eexists].
  - left. by eexists.
  - right. split; [done|by eexists].
Qed.

Lemma makedirs_present (p : DirPath) (f : FS) (e : Entry) :
  lookup_entry p f = Some e → makedirs p f = f.
Proof. intros H. unfold makedirs. by rewrite H. Qed.

Lemma read_file_write_same (p : FilePath) (c : FileContent) (f : FS) :
  read_file p (write_file p c f) = Some c.
Proof.
  unfold read_file, write_file. rewrite lookup_entry_set_entry.
  rewrite decide_True by done. apply lookup_insert_eq.
Qed.

Lemma read_file_write_other (p q : FilePath) (c : FileContent) (f : FS) :
  q ≠ p → read_file q (write_file p c f) = read_file q f.
Proof.
  intros Hne. unfold read_file, write_file, files_of.
  rewrite lookup_entry_set_entry. case_decide as Hd; [|done].
  destruct Hd as [Hr Hn].
  assert (Hdir : fp_dir q = fp_dir p).
  { destruct (fp_dir q), (fp_dir p). simpl in *. congruence. }
  rewrite Hdir. rewrite lookup_insert_ne.
  - by destruct (lookup_entry (fp_dir p) f) as [[files|t]|].
  - intros Hname. apply Hne. destruct p, q. simpl in *. congruence.
Qed.

Lemma present_dir (p : FilePath) (f : FS) :
  absent p f = false → makedirs (fp_dir p) f = f.
Proof.
  unfold absent, read_file. intros H.
  destruct (lookup_entry (fp_dir p) f) as [e|] eqn:E; [|done].
  by eapply makedirs_present.
Qed.

Lemma app_one_inv {A} (l l' : list A) (x : A) (rest : list A) :
  l' = l ++ [x] → l' = l ++ rest → rest = [x].
Proof. intros -> H. by apply app_inv_head in H. Qed.

Lemma app_none_inv {A} (l : list A) (x : A) (rest : list A) :
  l = l ++ x :: rest → False.
Proof.
  intros H. apply (f_equal (@length A)) in H. rewrite length_app in H.
  simpl in H. lia.
Qed.

Section Runs.
Variable client : ClientCall → ClientOutcome.
Variable urlparse_netloc : string → string.

Lemma request_and_save_cases now ro s rk w r w' files :
  request_and_save client now ro s rk w = (r, w') →
  lookup_entry (Host_dir (host s)) (fs w) = Some (Directory files) →
  let p := session_file (host s) (name s) in
  (∃ e, r = Raise e ∧ w' = w)
  ∨ (∃ jar stored,
       cookies_loop (s_cookies (data s)) empty_jar = (Ok jar, stored)
       ∧ let call := {| call_cookies := clear_expired_cookies now jar;
                        call_kwargs := rk |} in
         sent w' = sent w ++ [call]
         ∧ match client call with
           | Raised e => r = Raise e ∧ fs w' = fs w
           | Returned resp cj =>
               r = Ok resp
               ∧ fs w' = if absent p (fs w) || negb ro
                         then write_file p
                                (Stored (set_cookies (encode_cookies cj)
                                           (set_cookies stored (data s))))
                                (fs w)
                         else fs w
           end).
Proof.
  intros Hrun Hdir p. unfold request_and_save, Session_cookies in Hrun.
  destruct (cookies_loop (s_cookies (data s)) empty_jar) as [rj stored] eqn:Eloop.
  unfold mbind, M_bind, lift in Hrun.
  destruct rj as [jar|e]; cbn [res_bind] in Hrun.
  2:{ injection Hrun as <- <-. left. eauto. }
  right. exists jar, stored. split; [done|].
  unfold rsession_request in Hrun. cbn zeta.
  destruct (client _) as [resp cj|e].
  - rewrite Session_is_new_run in Hrun.
    cbn [Sessions.host Sessions.name with_data fs with_fs sent] in Hrun.
    rewrite (makedirs_present _ _ _ Hdir) in Hrun. fold p in Hrun.
    destruct (absent p (fs w) || negb ro).
    + rewrite Session_save_run in Hrun.
      cbn [Sessions.host Sessions.name with_data fs with_fs sent Session_cookies_set
           data] in Hrun.
      rewrite (makedirs_present _ _ _ Hdir), Hdir in Hrun. fold p in Hrun.
      injection Hrun as <- <-. done.
    + injection Hrun as <- <-. done.
  - injection Hrun as <- <-. done.
Qed.

Lemma get_response_cases now name rk cfg ro w r w' :
  get_response client urlparse_netloc now name rk cfg ro w = (r, w') →
  let h := target_host urlparse_netloc rk cfg in
  let p := session_file h name in
  let f1 := makedirs (Host_dir h) (fs w) in
  let d0 := loaded p (fs w) in
  let merged := headers_update (s_headers d0) (rk_headers rk) in
  (∃ e, r = Raise e ∧ sent w' = sent w
        ∧ ∀ q, read_file q (fs w') = read_file q (fs w))
  ∨ (∃ cred jar stored,
       Host_VALID_NAME (host_name h) = true
       ∧ Session_VALID_NAME name = true
       ∧ match rk_auth rk with
         | Some c => cred = Some c
         | None =>
             Session_auth {| host := h; name := name;
                             data := set_headers merged d0 |} = Ok cred
         end
       ∧ cookies_loop (s_cookies d0) empty_jar = (Ok jar, stored)
       ∧ let call :=
           {| call_cookies := clear_expired_cookies now jar;
              call_kwargs := {| rk_headers := merged; rk_url := rk_url rk;
                                rk_auth := cred; rk_other := rk_other rk |} |} in
         let d1 :=
           {| s_headers := merged; s_cookies := stored;
              s_auth := match rk_auth rk with
                        | Some c => auth_record c
                        | None => s_auth d0
                        end |} in
         sent w' = sent w ++ [call]
         ∧ match client call with
           | Raised e => r = Raise e ∧ fs w' = f1
           | Returned resp cj =>
               r = Ok resp
               ∧ fs w' = if absent p (fs w) || negb ro
                         then write_file p
                                (Stored (set_cookies (encode_cookies cj) d1)) f1
                         else f1
           end).
Proof.
  intros Hrun h p f1 d0 merged.
  unfold get_response in Hrun. unfold mbind at 1 2 3 4, M_bind at 1 2 3 4 in Hrun.
  rewrite Host_init_run in Hrun.
  destruct (Host_VALID_NAME (target_host_name urlparse_netloc rk)) eqn:Hhost.
  2:{ injection Hrun as <- <-. left. eauto. }
  rewrite Session_init_run in Hrun.
  destruct (Session_VALID_NAME name) eqn:Hname.
  2:{ injection Hrun as <- <-. left. eauto. }
  change {| host_name := target_host_name urlparse_netloc rk;
            root_dir := path_join cfg SESSIONS_DIR_NAME |} with h in Hrun.
  destruct (Session_load_cases h name w) as [[e He]|[Hload [files Hfiles]]].
  { rewrite He in Hrun. injection Hrun as <- <-. left.
    eexists. split; [done|]. split; [done|]. intros q. apply read_file_makedirs. }
  rewrite Hload in Hrun. fold p d0 f1 in Hrun. fold f1 in Hfiles.
  cbn [data with_data rk_auth with_headers s_headers set_headers Sessions.host
       Sessions.name] in Hrun.
  fold merged in Hrun.
  assert (Htail : ∀ s2 rk2,
    host s2 = h → Sessions.name s2 = name →
    s_cookies (data s2) = s_cookies d0 →
    request_and_save client now ro s2 rk2 (with_fs f1 w) = (r, w') →
    (∃ e, r = Raise e ∧ sent w' = sent w
          ∧ ∀ q, read_file q (fs w') = read_file q (fs w))
    ∨ (∃ jar stored,
         cookies_loop (s_cookies d0) empty_jar = (Ok jar, stored)
         ∧ let call := {| call_cookies := clear_expired_cookies now jar;
                          call_kwargs := rk2 |} in
           sent w' = sent w ++ [call]
           ∧ match client call with
             | Raised e => r = Raise e ∧ fs w' = f1
             | Returned resp cj =>
                 r = Ok resp
                 ∧ fs w' = if absent p (fs w) || negb ro
                           then write_file p
                                  (Stored (set_cookies (encode_cookies cj)
                                             (set_cookies stored (data s2)))) f1
                           else f1
             end)).
  { intros s2 rk2 Hh Hn Hc Ht.
    eapply request_and_save_cases in Ht; [|cbn [fs with_fs]; rewrite Hh; exact Hfiles].
    rewrite Hh, Hn, Hc in Ht. cbn [fs with_fs sent] in Ht. fold p in Ht.
    destruct Ht as [[e [-> ->]]|(jar & stored & Hloop & Hcall)].
    - left. eexists. split; [done|]. split; [done|].
      intros q. apply read_file_makedirs.
    - right. exists jar, stored. split; [done|].
      unfold absent in Hcall. unfold f1 in Hcall at 1.
      rewrite read_file_makedirs in Hcall. exact Hcall. }
  destruct (rk_auth rk) as [c|] eqn:Eauth.
  - apply Htail in Hrun; [|done..].
    destruct Hrun as [Hl|(jar & stored & Hloop & Hcall)]; [by left|].
    right. exists (Some c), jar, stored.
    split; [done|]. split; [done|]. split; [done|]. split; [done|].
    unfold with_headers in Hcall. rewrite Eauth in Hcall. exact Hcall.
  - unfold mbind, M_bind, lift in Hrun.
    destruct (Session_auth _) as [cred|e] eqn:Esa.
    2:{ injection Hrun as <- <-. left. eexists. split; [done|]. split; [done|].
        intros q. apply read_file_makedirs. }
    destruct cred as [c|].
    + apply Htail in Hrun; [|done..].
      destruct Hrun as [Hl|(jar & stored & Hloop & Hcall)]; [by left|].
      right. exists (Some c), jar, stored.
      split; [done|]. split; [done|]. split; [first [exact Esa | reflexivity]|]. split; [done|].
      exact Hcall.
    + apply Htail in Hrun; [|done..].
      destruct Hrun as [Hl|(jar & stored & Hloop & Hcall)]; [by left|].
      right. exists None, jar, stored.
      split; [done|]. split; [done|]. split; [first [exact Esa | reflexivity]|]. split; [done|].
      unfold with_headers in Hcall. rewrite Eauth in Hcall. exact Hcall.
Qed.

(** C2. The headers [get_response] sends are the stored session headers
    updated with the request's: every key of the request carries the
    request's value, every other key of the session carries the session's;
    [{A:1, B:2}] updated with [{B:3, C:4}] is [{A:1, B:3, C:4}]. *)
Theorem get_response_merges_headers now name rk cfg ro w call rest :
  let run := get_response client urlparse_netloc now name rk cfg ro w in
  let S := s_headers (loaded (session_file (target_host urlparse_netloc rk cfg) name)
                             (fs w)) in
  let R := rk_headers rk in
  sent (snd run) = sent w ++ call :: rest →
  rk_headers (call_kwargs call) = headers_update S R
  ∧ (∀ k v, R !! k = Some v → rk_headers (call_kwargs call) !! k = Some v)
  ∧ (∀ k, R !! k = None → rk_headers (call_kwargs call) !! k = S !! k)
  ∧ headers_update {[ "A" := "1"; "B" := "2" ]} {[ "B" := "3"; "C" := "4" ]}
    = ({[ "A" := "1"; "B" := "3"; "C" := "4" ]} : gmap string string).
Proof.
  intros run S R Hsent.
  destruct run as [r w'] eqn:Hrun. unfold run in Hrun. cbn [snd] in Hsent.
  apply get_response_cases in Hrun.
  destruct Hrun as [(e & _ & Hs & _)|(cred & jar & stored & _ & _ & _ & _ & Hs & _)].
  { rewrite Hs in Hsent. by apply app_none_inv in Hsent. }
  apply (app_one_inv _ _ _ _ Hs) in Hsent. injection Hsent as -> _.
  cbn [call_kwargs rk_headers]. fold S R.
  split; [done|]. unfold headers_update. split; [|split].
  - intros k v Hk. by apply lookup_union_Some_l.
  - intros k Hk. by apply lookup_union_r.
  - apply map_eq. intros k. by vm_compute.
Qed.


(** C1. When [get_response] returns a response, the client was called
    once and answered with it, and the session is saved, its cookies
    overwritten with those of the client's jar, exactly when the session
    file did not exist or [read_only] is off (no other file changes);
    for a session that existed, with [read_only] on, the store is left as
    it was. *)
Theorem get_response_conditional_save now name rk cfg ro w resp :
  let run := get_response client urlparse_netloc now name rk cfg ro w in
  let p := session_file (target_host urlparse_netloc rk cfg) name in
  fst run = Ok resp →
  ∃ call cj,
    sent (snd run) = sent w ++ [call]
    ∧ client call = Returned resp cj
    ∧ if absent p (fs w) || negb ro
      then (∃ d, read_file p (fs (snd run)) = Some (Stored d)
                 ∧ s_cookies d = encode_cookies cj
                 ∧ s_headers d = rk_headers (call_kwargs call))
           ∧ (∀ q, q ≠ p → read_file q (fs (snd run)) = read_file q (fs w))
      else fs (snd run) = fs w.
Proof.
  intros run p Hok.
  destruct run as [r w'] eqn:Hrun. unfold run in Hrun. cbn [fst snd] in *.
  apply get_response_cases in Hrun. fold p in Hrun.
  destruct Hrun as [(e & -> & _)|(cred & jar & stored & _ & _ & _ & _ & Hs & Hc)];
    [done|].
  eexists. destruct (client _) as [resp' cj|e] eqn:Ecl.
  2:{ destruct Hc as [-> _]. done. }
  destruct Hc as [-> Hfs]. injection Hok as ->.
  exists cj. split; [exact Hs|]. split; [exact Ecl|].
  destruct (absent p (fs w) || negb ro) eqn:Esave.
  - rewrite Hfs. split.
    + eexists. split; [apply read_file_write_same|]. by split.
    + intros q Hq. rewrite read_file_write_other by done. apply read_file_makedirs.
  - rewrite Hfs. apply orb_false_iff in Esave as [Habs _].
    by apply (present_dir p).
Qed.

(** C3. Credentials given with the request are sent with it and, when the
    run returns and saves, are the auth the session file holds; with no
    credentials on the request, stored basic or digest auth is sent with
    it, and a stored auth of type null sends none. *)
Theorem get_response_auth_precedence now name rk cfg ro w call rest :
  let run := get_response client urlparse_netloc now name rk cfg ro w in
  let p := session_file (target_host urlparse_netloc rk cfg) name in
  let stored := s_auth (loaded p (fs w)) in
  sent (snd run) = sent w ++ call :: rest →
  match rk_auth rk with
  | Some cred =>
      rk_auth (call_kwargs call) = Some cred
      ∧ (∀ resp, fst run = Ok resp → absent p (fs w) || negb ro = true →
           ∃ d, read_file p (fs (snd run)) = Some (Stored d)
                ∧ s_auth d = auth_record cred)
  | None =>
      (a_type stored = Some "basic" →
         rk_auth (call_kwargs call)
         = Some (HTTPBasicAuth (a_username stored) (a_password stored)))
      ∧ (a_type stored = Some "digest" →
           rk_auth (call_kwargs call)
           = Some (HTTPDigestAuth (a_username stored) (a_password stored)))
      ∧ (a_type stored = None → rk_auth (call_kwargs call) = None)
  end.
Proof.
  intros run p stored Hsent.
  destruct run as [r w'] eqn:Hrun. unfold run in Hrun. cbn [fst snd] in *.
  apply get_response_cases in Hrun. fold p in Hrun.
  destruct Hrun as [(e & _ & Hs & _)|(cred & jar & st & _ & _ & Hcred & _ & Hs & Hc)].
  { rewrite Hs in Hsent. by apply app_none_inv in Hsent. }
  apply (app_one_inv _ _ _ _ Hs) in Hsent. injection Hsent as -> _.
  cbn [call_kwargs rk_auth].
  destruct (rk_auth rk) as [c|] eqn:Eauth.
  - split; [done|]. intros resp -> Hsave.
    destruct (client _) as [resp' cj|e]; [|by destruct Hc].
    destruct Hc as [_ Hfs]. rewrite Hsave in Hfs. rewrite Hfs.
    eexists. split; [apply read_file_write_same|]. done.
  - unfold Session_auth in Hcred. cbn [data set_headers s_auth] in Hcred.
    fold p stored in Hcred.
    split; [|split]; intros Ht; rewrite Ht in Hcred; cbn in Hcred; congruence.
Qed.

(** C7. When the HTTP client raises on the call [get_response] makes,
    [get_response] raises that same exception, has made no further call,
    and every file of the store reads as it did before. *)
Theorem get_response_transport_error now name rk cfg ro w call rest e :
  let run := get_response client urlparse_netloc now name rk cfg ro w in
  sent (snd run) = sent w ++ call :: rest →
  client call = Raised e →
  fst run = Raise e
  ∧ rest = []
  ∧ ∀ q, read_file q (fs (snd run)) = read_file q (fs w).
Proof.
  intros run Hsent Hraised.
  destruct run as [r w'] eqn:Hrun. unfold run in Hrun. cbn [fst snd] in *.
  apply get_response_cases in Hrun.
  destruct Hrun as [(e' & _ & Hs & _)|(cred & jar & st & _ & _ & _ & _ & Hs & Hc)].
  { rewrite Hs in Hsent. by apply app_none_inv in Hsent. }
  apply (app_one_inv _ _ _ _ Hs) in Hsent. injection Hsent as -> ->.
  rewrite Hraised in Hc. destruct Hc as [-> Hfs].
  split; [done|]. split; [done|].
  intros q. rewrite Hfs. apply read_file_makedirs.
Qed.

(** An invalid host or session name stops [get_response] before the
    store is touched or the client called. *)
Lemma get_response_invalid_name now name rk cfg ro w :
  Host_VALID_NAME (target_host_name urlparse_netloc rk) = false
  ∨ Session_VALID_NAME name = false →
  get_response client urlparse_netloc now name rk cfg ro w
  = (Raise AssertionError, w).
Proof.
  intros H. unfold get_response. unfold mbind at 1 2, M_bind at 1 2.
  rewrite Host_init_run.
  destruct (Host_VALID_NAME (target_host_name urlparse_netloc rk)); [|done].
  rewrite Session_init_run. destruct H as [H|H]; [done|]. by rewrite H.
Qed.

End Runs.

(** ** Witnesses and examples for the orchestrator *)

Lemma get_response_merges_headers_witness :
  let call := Sample.call_with Sample.merged_headers
                (Some (HTTPBasicAuth (Some "u") (Some "pw"))) in
  let S := s_headers (loaded (session_file
                                (target_host Sample.netloc Sample.request "/cfg") "s1")
                             (fs Sample.one_session_world)) in
  let R := rk_headers Sample.request in
  rk_headers (call_kwargs call) = headers_update S R
  ∧ (∀ k v, R !! k = Some v → rk_headers (call_kwargs call) !! k = Some v)
  ∧ (∀ k, R !! k = None → rk_headers (call_kwargs call) !! k = S !! k)
  ∧ headers_update {[ "A" := "1"; "B" := "2" ]} {[ "B" := "3"; "C" := "4" ]}
    = ({[ "A" := "1"; "B" := "3"; "C" := "4" ]} : gmap string string).
Proof.
  apply (get_response_merges_headers Sample.server Sample.netloc 0 "s1"
           Sample.request "/cfg" false Sample.one_session_world
           (Sample.call_with Sample.merged_headers
              (Some (HTTPBasicAuth (Some "u") (Some "pw")))) []).
  vm_compute. reflexivity.
Defined.

Lemma get_response_conditional_save_witness :
  let run := get_response Sample.server Sample.netloc 0 "s1" Sample.request "/cfg"
               true Sample.one_session_world in
  let p := session_file (target_host Sample.netloc Sample.request "/cfg") "s1" in
  ∃ call cj,
    sent (snd run) = sent Sample.one_session_world ++ [call]
    ∧ Sample.server call = Returned Sample.ok_response cj
    ∧ if absent p (fs Sample.one_session_world) || negb true
      then (∃ d, read_file p (fs (snd run)) = Some (Stored d)
                 ∧ s_cookies d = encode_cookies cj
                 ∧ s_headers d = rk_headers (call_kwargs call))
           ∧ (∀ q, q ≠ p → read_file q (fs (snd run))
                           = read_file q (fs Sample.one_session_world))
      else fs (snd run) = fs Sample.one_session_world.
Proof.
  apply (get_response_conditional_save Sample.server Sample.netloc 0 "s1"
           Sample.request "/cfg" true Sample.one_session_world Sample.ok_response).
  vm_compute. reflexivity.
Defined.

(** An existing session with [read_only] on: the response's new cookie does
    not reach the file. *)
Example read_only_existing_untouched :
  fs (snd (get_response Sample.server Sample.netloc 0 "s1" Sample.request "/cfg"
             true Sample.one_session_world))
  = fs Sample.one_session_world.
Proof. by vm_compute. Qed.

(** A new session is written even with [read_only] on. *)
Example read_only_new_written :
  read_file (session_file (target_host Sample.netloc Sample.request "/cfg") "s2")
            (fs (snd (get_response Sample.server Sample.netloc 0 "s2" Sample.request
                        "/cfg" true Sample.one_session_world)))
  = Some (Stored {| s_headers := {[ "B" := "3"; "C" := "4" ]};
                    s_cookies := encode_cookies
                                   (Sample.jar_of [Sample.cookie "sid" "fresh"
                                                     "example.org" None]);
                    s_auth := no_auth |}).
Proof. by vm_compute. Qed.

Lemma get_response_auth_precedence_witness :
  let run := get_response Sample.server Sample.netloc 0 "s1" Sample.request_with_auth
               "/cfg" false Sample.one_session_world in
  let p := session_file (target_host Sample.netloc Sample.request_with_auth "/cfg")
             "s1" in
  let call := Sample.call_with Sample.merged_headers
                (Some (HTTPDigestAuth (Some "me") (Some "secret"))) in
  rk_auth (call_kwargs call) = Some (HTTPDigestAuth (Some "me") (Some "secret"))
  ∧ (∀ resp, fst run = Ok resp →
       absent p (fs Sample.one_session_world) || negb false = true →
       ∃ d, read_file p (fs (snd run)) = Some (Stored d)
            ∧ s_auth d = auth_record (HTTPDigestAuth (Some "me") (Some "secret"))).
Proof.
  apply (get_response_auth_precedence Sample.server Sample.netloc 0 "s1"
           Sample.request_with_auth "/cfg" false Sample.one_session_world
           (Sample.call_with Sample.merged_headers
              (Some (HTTPDigestAuth (Some "me") (Some "secret")))) []).
  vm_compute. reflexivity.
Defined.

(** Stored basic auth for user [u] goes out with a request that has no
    credentials of its own. *)
Example stored_auth_injected :
  sent (snd (get_response Sample.server Sample.netloc 0 "s1" Sample.request "/cfg"
               false Sample.one_session_world))
  = [Sample.call_with Sample.merged_headers
       (Some (HTTPBasicAuth (Some "u") (Some "pw")))].
Proof. by vm_compute. Qed.

Lemma get_response_transport_error_witness :
  let run := get_response Sample.unreachable Sample.netloc 0 "s1" Sample.request
               "/cfg" false Sample.one_session_world in
  fst run = Raise (ConnectionError "connection refused")
  ∧ ([] : list ClientCall) = []
  ∧ ∀ q, read_file q (fs (snd run)) = read_file q (fs Sample.one_session_world).
Proof.
  apply (get_response_transport_error Sample.unreachable Sample.netloc 0 "s1"
           Sample.request "/cfg" false Sample.one_session_world
           (Sample.call_with Sample.merged_headers
              (Some (HTTPBasicAuth (Some "u") (Some "pw")))) []
           (ConnectionError "connection refused")).
  - vm_compute. reflexivity.
  - reflexivity.
Defined.

(** ** Name validation *)

Lemma class_star_end_rejects (cls : ascii → bool) (l : list ascii) (c : ascii) :
  In c l → cls c = false → c ≠ newline → class_star_end cls l = false.
Proof.
  intros Hin Hc Hnl. induction l as [|x l IH]; [done|]. simpl.
  destruct Hin as [->|Hin].
  - rewrite Hc. apply Ascii.eqb_neq in Hnl. by rewrite Hnl.
  - destruct (cls x); [by apply IH|].
    destruct l; [done|]. apply andb_false_r.
Qed.

Lemma re_match_rejects (cls : ascii → bool) (s : string) (c : ascii) :
  In c (chars s) → cls c = false → c ≠ newline →
  re_match_class_plus cls s = false.
Proof.
  intros Hin Hc Hnl. unfold re_match_class_plus.
  destruct (chars s) as [|x l]; [done|].
  destruct Hin as [->|Hin]; [by rewrite Hc|].
  rewrite (class_star_end_rejects cls l c) by done. apply andb_false_r.
Qed.

(** C9. A host name that does not match [^[a-zA-Z0-9_.:-]+$] makes
    [Host(...)] fail on its assertion, and a session name that does not
    match [^[a-zA-Z0-9_.-]+$] makes [Session(...)] fail on its own, each
    with the store exactly as it was; names with a slash or a space are
    among them. *)
Theorem validation_precedes_filesystem
    (host_name session_name root : string) (h : Host) (w : World) :
  (Host_VALID_NAME host_name = false →
     Host_init host_name root w = (Raise AssertionError, w))
  ∧ (Session_VALID_NAME session_name = false →
       Session_init h session_name w = (Raise AssertionError, w))
  ∧ (In "/"%char (chars host_name) ∨ In " "%char (chars host_name) →
       Host_VALID_NAME host_name = false)
  ∧ (In "/"%char (chars session_name) ∨ In " "%char (chars session_name) →
       Session_VALID_NAME session_name = false).
Proof.
  split; [|split; [|split]].
  - intros H. by rewrite Host_init_run, H.
  - intros H. by rewrite Session_init_run, H.
  - intros [H|H]; eapply re_match_rejects; eauto; done.
  - intros [H|H]; eapply re_match_rejects; eauto; done.
Qed.

Lemma validation_precedes_filesystem_witness :
  Host_init "../etc" "/cfg/sessions" Sample.one_session_world
  = (Raise AssertionError, Sample.one_session_world)
  ∧ Session_init Sample.example_host "my session" Sample.one_session_world
    = (Raise AssertionError, Sample.one_session_world).
Proof.
  destruct (validation_precedes_filesystem "../etc" "my session" "/cfg/sessions"
              Sample.example_host Sample.one_session_world)
    as (Hhost & Hsession & Hslash & Hspace).
  split.
  - apply Hhost. apply Hslash. left. vm_compute. tauto.
  - apply Hsession. apply Hspace. right. vm_compute. tauto.
Defined.

(** ** The delete command *)

(** With a session name given, the command takes neither branch that
    deletes: the store is left as it was. *)
Lemma command_session_delete_named (cfg hostname s : string) (w : World) :
  Host_VALID_NAME hostname = true → s ≠ "" →
  command_session_delete cfg hostname (Some s) w = (Ok tt, w).
Proof.
  intros Hv Hs. unfold command_session_delete, mbind, M_bind.
  rewrite Host_init_run, Hv. cbn [not_name].
  apply String.eqb_neq in Hs. by rewrite Hs.
Qed.

(** C6, at a host name and a session name together: the session's file is
    still there after the command, which has changed nothing. *)
Theorem command_session_delete_keeps_named_session :
  command_session_delete "/cfg" "example.org" (Some "s1") Sample.one_session_world
  = (Ok tt, Sample.one_session_world)
  ∧ read_file (session_file Sample.example_host "s1") (fs Sample.one_session_world)
    = Some (Stored Sample.stored_session).
Proof. split; by vm_compute. Qed.

(** With a host name alone the host's directory goes, with every session
    in it, and the command then fails on [Session(host, None)]. *)
Example command_session_delete_host :
  command_session_delete "/cfg" "example.org" None Sample.one_session_world
  = (Raise TypeError, {| fs := {[ "/cfg/sessions" := ∅ ]}; sent := [] |}).
Proof. by vm_compute. Qed.

(** The host enumerates no session afterwards. *)
Example command_session_delete_host_then_iter :
  fst (Host_iter Sample.example_host
         (snd (command_session_delete "/cfg" "example.org" None
                 Sample.one_session_world)))
  = Ok ([], None).
Proof. by vm_compute. Qed.

(** Before it, the host enumerates its session. *)
Example host_iter_before_delete :
  fst (Host_iter Sample.example_host Sample.one_session_world)
  = Ok ([{| host := Sample.example_host; name := "s1"; data := defaults |}], None).
Proof. by vm_compute. Qed.

(** * Further properties *)

(** ** The auth codec *)

(** X1. Storing a credential with the [auth] setter and reading [auth]
    back gives the same credential, basic or digest, with its user name and
    password; the setter leaves headers and cookies alone. *)
Theorem auth_set_then_get (cred : Credential) (self : Session) :
  Session_auth (Session_auth_set cred self) = Ok (Some cred)
  ∧ s_headers (data (Session_auth_set cred self)) = s_headers (data self)
  ∧ s_cookies (data (Session_auth_set cred self)) = s_cookies (data self).
Proof. by destruct cred. Qed.

(** X2. The [auth] getter gives no credential exactly when the stored type
    is null or the empty string, and it raises exactly when the stored type
    is some other string than ["basic"] and ["digest"]: a [KeyError] that
    carries that string. *)
Theorem auth_get_cases (self : Session) :
  let t := a_type (s_auth (data self)) in
  (Session_auth self = Ok None ↔ t = None ∨ t = Some "")
  ∧ (∀ e, Session_auth self = Raise e
          ↔ ∃ k, e = KeyError k ∧ t = Some k
                 ∧ k ≠ "" ∧ k ≠ "basic" ∧ k ≠ "digest").
Proof.
  unfold Session_auth. cbn zeta.
  destruct (a_type (s_auth (data self))) as [k|].
  2:{ split; [naive_solver|]. intros e. split; [done|]. by intros (k & _ & ? & _). }
  destruct (String.eqb k "") eqn:E0.
  { apply String.eqb_eq in E0. subst k. split; [naive_solver|].
    intros e. split; [done|]. intros (k & _ & [= <-] & ? & _). done. }
  apply String.eqb_neq in E0.
  destruct (String.eqb k "basic") eqn:E1.
  { apply String.eqb_eq in E1. subst k. split; [naive_solver|].
    intros e. split; [done|]. intros (k & _ & [= <-] & _ & ? & _). done. }
  apply String.eqb_neq in E1.
  destruct (String.eqb k "digest") eqn:E2.
  { apply String.eqb_eq in E2. subst k. split; [naive_solver|].
    intros e. split; [done|]. intros (k & _ & [= <-] & _ & _ & ?). done. }
  apply String.eqb_neq in E2.
  split; [naive_solver|]. intros e. split.
  - intros [= <-]. by exists k.
  - intros (k' & -> & [= <-] & _). done.
Qed.

(** ** The orchestrator, further *)

Lemma Session_load_present (h : Host) (n : string) (w : World) (d : SessionData) :
  read_file (session_file h n) (fs w) = Some (Stored d) →
  Session_load {| host := h; name := n; data := defaults |} w
  = (Ok {| host := h; name := n; data := d |}, w).
Proof.
  intros Hd. rewrite Session_load_run. cbn [host name fs with_fs].
  assert (Hp : makedirs (Host_dir h) (fs w) = fs w).
  { apply (present_dir (session_file h n)). unfold absent. by rewrite Hd. }
  rewrite Hp. rewrite Hd.
  unfold read_file in Hd. cbn [session_file fp_dir] in Hd.
  destruct (lookup_entry (Host_dir h) (fs w)) as [[files|t]|]; [|done..].
  by destruct w.
Qed.

Section Runs_further.
Variable client : ClientCall → ClientOutcome.
Variable urlparse_netloc : string → string.

(** X3. One run of [get_response] calls the HTTP client at most once and
    keeps the record of earlier calls; a run that does not reach the client
    raises, and every file reads as it did before. *)
Theorem get_response_one_call_at_most now name rk cfg ro w :
  let run := get_response client urlparse_netloc now name rk cfg ro w in
  (sent (snd run) = sent w
   ∧ (∃ e, fst run = Raise e)
   ∧ ∀ q, read_file q (fs (snd run)) = read_file q (fs w))
  ∨ (∃ call, sent (snd run) = sent w ++ [call]).
Proof.
  intros run. destruct run as [r w'] eqn:Hrun. unfold run in Hrun.
  apply get_response_cases in Hrun. cbn [fst snd].
  destruct Hrun as [(e & -> & Hs & Hf)|(cred & jar & st & _ & _ & _ & _ & Hs & _)].
  - left. split; [done|]. split; [by eexists|done].
  - right. by eexists.
Qed.

(** X5. With no credentials on the request and a stored auth type that is
    neither null, empty, ["basic"] nor ["digest"], [get_response] raises
    [KeyError] for that type before it calls the client, and the session
    file is as it was. *)
Theorem get_response_unknown_auth_type now name rk cfg ro w d t :
  let h := target_host urlparse_netloc rk cfg in
  let run := get_response client urlparse_netloc now name rk cfg ro w in
  Host_VALID_NAME (host_name h) = true →
  Session_VALID_NAME name = true →
  read_file (session_file h name) (fs w) = Some (Stored d) →
  a_type (s_auth d) = Some t → t ≠ "" → t ≠ "basic" → t ≠ "digest" →
  rk_auth rk = None →
  run = (Raise (KeyError t), w).
Proof.
  intros h run Hhost Hname Hfile Ht H0 H1 H2 Hauth. unfold run, get_response.
  unfold mbind at 1 2 3 4, M_bind at 1 2 3 4.
  rewrite Host_init_run. cbn [target_host host_name h] in Hhost. rewrite Hhost.
  rewrite Session_init_run, Hname.
  change {| host_name := target_host_name urlparse_netloc rk;
            root_dir := path_join cfg SESSIONS_DIR_NAME |} with h.
  rewrite (Session_load_present h name w d Hfile).
  cbn [data with_data rk_auth with_headers s_headers set_headers Sessions.host
       Sessions.name].
  rewrite Hauth. unfold mbind, M_bind, lift, Session_auth.
  cbn [data with_data s_auth set_headers]. rewrite Ht.
  apply String.eqb_neq in H0, H1, H2. by rewrite H0, H1, H2.
Qed.

End Runs_further.

Lemma get_response_unknown_auth_type_witness :
  get_response Sample.server Sample.netloc 0 "s1" Sample.request "/cfg" false
    Sample.odd_auth_world
  = (Raise (KeyError "bearer"), Sample.odd_auth_world).
Proof.
  apply (get_response_unknown_auth_type Sample.server Sample.netloc 0 "s1"
           Sample.request "/cfg" false Sample.odd_auth_world
           Sample.odd_auth_session "bearer"); by vm_compute.
Defined.

(** ** What the getter puts in the jar *)

Lemma as_opt_str_inv (v : Val) (o : option string) :
  as_opt_str v = Ok o → v = of_opt_str o.
Proof. destruct v; simpl; intros [= <-]; done. Qed.

Lemma create_cookie_inv (n : string) (v : Val) (kw : gmap string Val) (c : Cookie) :
  create_cookie n v kw = Ok c →
  ck_name c = n ∧ v = of_opt_str (ck_value c).
Proof.
  unfold create_cookie. case_bool_decide; [|done]. intros Hc.
  repeat match type of Hc with
         | res_bind ?r _ = Ok _ =>
             let E := fresh "E" in
             destruct r eqn:E; cbn [res_bind] in Hc; [|discriminate Hc]
         end.
  injection Hc as <-. cbn. split; [done|]. by apply as_opt_str_inv.
Qed.

Lemma concat_dict_set_in {V X} (g : V → list X) (d : PyDict V) k v x :
  In x (concat (map g (dict_values (dict_set k v d)))) →
  In x (g v) ∨ In x (concat (map g (dict_values d))).
Proof.
  induction d as [|[k' v'] d IH]; simpl.
  - rewrite app_nil_r. auto.
  - destruct (String.eqb k k'); simpl; rewrite !in_app_iff; [tauto|].
    intros [H|H]; [tauto|]. apply IH in H. tauto.
Qed.

Lemma dict_set_in {V} (d : PyDict V) k v x :
  In x (dict_set k v d) → x = (k, v) ∨ In x d.
Proof.
  induction d as [|[k' v'] d IH]; simpl; [naive_solver|].
  destruct (String.eqb k k'); simpl; [naive_solver|].
  intros [H|H]; [auto|]. apply IH in H. tauto.
Qed.

Lemma jar_items_domain (jar : CookieJar) dom host x :
  dict_get dom jar = Some host → In x (concat (dict_values host)) →
  In x (jar_items jar).
Proof.
  intros H%dict_get_value Hx. unfold jar_items. apply in_concat.
  exists (concat (dict_values host)). split; [|done].
  apply in_map_iff. by exists host.
Qed.

Lemma jar_items_set_cookie_in (c : Cookie) (jar : CookieJar) x :
  In x (jar_items (set_cookie c jar)) → x = (ck_name c, c) ∨ In x (jar_items jar).
Proof.
  unfold set_cookie. intros H. unfold jar_items in H.
  apply (concat_dict_set_in (fun host : PyDict (PyDict Cookie) =>
                               concat (dict_values host))) in H.
  destruct H as [H|H]; [|by right].
  pose proof (concat_dict_set_in (@id (list (string * Cookie)))
                (or_empty (dict_get (ck_domain c) jar)) (ck_path c)
                (dict_set (ck_name c) c
                   (or_empty (dict_get (ck_path c)
                                (or_empty (dict_get (ck_domain c) jar))))) x)
    as Hid.
  rewrite !map_id in Hid. apply Hid in H. clear Hid.
  destruct (dict_get (ck_domain c) jar) as [host|] eqn:E1; cbn [or_empty] in H.
  - destruct H as [H|H]; [|right; by eapply jar_items_domain].
    apply dict_set_in in H as [H|H]; [by left|right].
    destruct (dict_get (ck_path c) host) as [p|] eqn:E2; cbn [or_empty] in H; [|done].
    by eapply jar_items_path.
  - destruct H as [H|[]]. apply dict_set_in in H as [H|[]]. by left.
Qed.

Lemma cookies_loop_items items jar jar' stored n c :
  cookies_loop items jar = (Ok jar', stored) →
  In (n, c) (jar_items jar') →
  In (n, c) (jar_items jar)
  ∨ (ck_name c = n
     ∧ ∃ d, In (n, d) items ∧ d !! "value" = Some (of_opt_str (ck_value c))).
Proof.
  revert jar stored. induction items as [|[k d] rest IH]; intros jar stored H Hin.
  - simpl in H. injection H as <- _. by left.
  - simpl in H. unfold dict_pop in H. destruct (d !! "value") as [v|] eqn:Ev; [|done].
    destruct (create_cookie k v (delete "value" d)) as [ck|e] eqn:Ec; [|done].
    destruct (cookies_loop rest (set_cookie ck jar)) as [r rest'] eqn:El.
    injection H as -> _.
    apply create_cookie_inv in Ec as [Hn Hv].
    destruct (IH _ _ El Hin) as [Hj|(Hname & d' & Hd' & Hval)].
    + apply jar_items_set_cookie_in in Hj as [Hj|Hj]; [|by left].
      injection Hj as -> ->. right. split; [done|].
      exists d. rewrite Hn. split; [by left|]. by rewrite Ev, Hv.
    + right. split; [done|]. exists d'. split; [by right|done].
Qed.

Section Runs_cookies.
Variable client : ClientCall → ClientOutcome.
Variable urlparse_netloc : string → string.

(** X4. Every cookie [get_response] hands to the client is unexpired at the
    time of the read, and was made from a stored entry of the session under
    the cookie's name, with the entry's [value]. *)
Theorem get_response_sends_stored_unexpired now name rk cfg ro w call rest :
  let run := get_response client urlparse_netloc now name rk cfg ro w in
  let stored :=
    s_cookies (loaded (session_file (target_host urlparse_netloc rk cfg) name)
                      (fs w)) in
  sent (snd run) = sent w ++ call :: rest →
  ∀ n c, In (n, c) (jar_items (call_cookies call)) →
    is_expired now c = false
    ∧ ck_name c = n
    ∧ ∃ d, In (n, d) stored ∧ d !! "value" = Some (of_opt_str (ck_value c)).
Proof.
  intros run stored Hsent n c Hin.
  destruct run as [r w'] eqn:Hrun. unfold run in Hrun. cbn [snd] in Hsent.
  apply get_response_cases in Hrun.
  destruct Hrun as [(e & _ & Hs & _)|(cred & jar & st & _ & _ & _ & Hloop & Hs & _)].
  { rewrite Hs in Hsent. by apply app_none_inv in Hsent. }
  apply (app_one_inv _ _ _ _ Hs) in Hsent. injection Hsent as -> _.
  cbn [call_cookies] in Hin. rewrite jar_items_clear_expired in Hin.
  apply list_elem_of_In, list_elem_of_filter in Hin as [Hexp Hin].
  apply list_elem_of_In in Hin. split; [exact Hexp|].
  destruct (cookies_loop_items _ _ _ _ _ _ Hloop Hin) as [[]|H]. exact H.
Qed.

End Runs_cookies.

Lemma get_response_sends_stored_unexpired_witness :
  is_expired 0 Sample.sent_cookie = false
  ∧ ck_name Sample.sent_cookie = "sid"
  ∧ ∃ d, In ("sid", d)
           (s_cookies (loaded (session_file
                                 (target_host Sample.netloc Sample.request "/cfg")
                                 "s1")
                              (fs Sample.one_session_world)))
         ∧ d !! "value" = Some (of_opt_str (ck_value Sample.sent_cookie)).
Proof.
  apply (get_response_sends_stored_unexpired Sample.server Sample.netloc 0 "s1"
           Sample.request "/cfg" false Sample.one_session_world
           (Sample.call_with Sample.merged_headers
              (Some (HTTPBasicAuth (Some "u") (Some "pw")))) []
           eq_refl "sid" Sample.sent_cookie).
  vm_compute. by left.
Defined.

(** ** The cookie codec on every jar *)

Lemma dict_set_map_values {V W} (f : V → W) (d : PyDict V) k v :
  dict_set k (f v) (map (fun kv => (fst kv, f (snd kv))) d)
  = map (fun kv => (fst kv, f (snd kv))) (dict_set k v d).
Proof.
  induction d as [|[k' v'] d IH]; simpl; [done|].
  destruct (String.eqb k k'); simpl; [done|]. by rewrite IH.
Qed.

Lemma file_cookies_map (items acc : list (string * Cookie)) :
  fold_left file_cookie items
            (map (fun nc => (fst nc, cookie_dict_of (snd nc))) acc)
  = map (fun nc => (fst nc, cookie_dict_of (snd nc)))
        (fold_left (fun a nc => dict_set (fst nc) (snd nc) a) items acc).
Proof.
  revert acc. induction items as [|[k c] items IH]; intros acc; [done|].
  simpl. rewrite <- IH. f_equal. unfold file_cookie. simpl.
  apply (dict_set_map_values cookie_dict_of).
Qed.

Lemma fold_set_get {V} (items acc : list (string * V)) (n : string) :
  dict_get n (fold_left (fun a nc => dict_set (fst nc) (snd nc) a) items acc)
  = match last_named n items with
    | Some c => Some c
    | None => dict_get n acc
    end.
Proof.
  revert acc. induction items as [|[k c] items IH]; intros acc; [done|].
  simpl. rewrite IH, last_named_cons. simpl.
  destruct (last_named n items); [done|].
  destruct (String.eqb n k) eqn:E.
  - apply String.eqb_eq in E. subst. apply dict_get_set_eq.
  - apply String.eqb_neq in E. apply dict_get_set_ne. congruence.
Qed.

Lemma fold_set_NoDup {V} (items acc : list (string * V)) :
  NoDup (dict_keys acc) →
  NoDup (dict_keys (fold_left (fun a nc => dict_set (fst nc) (snd nc) a) items acc)).
Proof.
  revert acc. induction items as [|x items IH]; intros acc H; [done|].
  simpl. apply IH. by apply dict_set_NoDup.
Qed.

Lemma dict_get_elem {V} (d : PyDict V) k v :
  NoDup (dict_keys d) → In (k, v) d ↔ dict_get k d = Some v.
Proof.
  intros Hnd. split; [|intros H; by apply list_elem_of_In, dict_get_Some_elem].
  induction d as [|[k' v'] d IH]; simpl; [done|].
  apply NoDup_cons in Hnd as [Hk Hnd].
  destruct (String.eqb k k') eqn:E.
  - apply String.eqb_eq in E. subst k'. intros [[= ->]|Hin]; [done|].
    exfalso. apply Hk. apply list_elem_of_In. unfold dict_keys.
    apply in_map_iff. by exists (k, v).
  - apply String.eqb_neq in E. intros [[= ? ?]|Hin]; [congruence|]. by apply IH.
Qed.

Lemma encode_then_loop (now : Z) (jar : CookieJar) :
  ∃ jar0 stored,
    cookies_loop (encode_cookies jar) empty_jar = (Ok jar0, stored)
    ∧ ∀ n v, In (n, v) (jar_pairs (clear_expired_cookies now jar0))
             ↔ ∃ c, last_named n (jar_items jar) = Some c
                    ∧ ck_value c = v ∧ is_expired now c = false.
Proof.
  rewrite encode_cookies_flat.
  pose proof (file_cookies_map (jar_items jar) []) as Hmap. simpl in Hmap.
  rewrite Hmap. clear Hmap.
  set (D := fold_left (fun a nc => dict_set (fst nc) (snd nc) a) (jar_items jar) []).
  assert (HD : NoDup (dict_keys D)) by (apply fold_set_NoDup; constructor).
  assert (Hget : ∀ n, dict_get n D = last_named n (jar_items jar)).
  { intros n. unfold D. rewrite fold_set_get. by destruct (last_named n _). }
  rewrite cookies_loop_encoded.
  eexists _, _. split; [reflexivity|].
  assert (Hperm : jar_items
            (fold_left (fun j nc => set_cookie (recreated (fst nc) (snd nc)) j)
                       D empty_jar)
          ≡ₚ map (fun nc => (fst nc, recreated (fst nc) (snd nc))) D).
  { rewrite jar_items_refill; [done|exact HD|]. intros n _ []. }
  intros n v. unfold jar_pairs. rewrite jar_items_clear_expired, in_map_iff. split.
  - intros [[k c'] [Heq Hin]]. simpl in Heq.
    apply list_elem_of_In, list_elem_of_filter in Hin as [Hexp Hin].
    apply list_elem_of_In in Hin.
    eapply Permutation_in in Hin; [|exact Hperm].
    apply in_map_iff in Hin as [[k0 c] [Hrc Hin]]. simpl in Hrc.
    injection Hrc as -> <-. simpl in *. injection Heq as -> <-.
    exists c. split; [|done]. rewrite <- Hget. by apply dict_get_elem.
  - intros (c & Hlast & Hv & Hexp). rewrite <- Hget in Hlast.
    apply dict_get_elem in Hlast; [|done].
    exists (n, recreated n c). simpl. split; [by rewrite Hv|].
    apply list_elem_of_In, list_elem_of_filter. split; [exact Hexp|].
    apply list_elem_of_In.
    eapply Permutation_in; [symmetry; exact Hperm|].
    apply in_map_iff. by exists (n, c).
Qed.

(** X6. Writing any jar with the [cookies] setter and reading it back
    succeeds, and the jar read back has, for each name, the value of the
    cookie that came last under that name in the written jar, provided that
    cookie has not expired; names whose last cookie has expired are gone. *)
Theorem cookies_roundtrip_last_named (now : Z) (jar : CookieJar) (self : Session) :
  ∃ jar',
    fst (Session_cookies now (Session_cookies_set jar self)) = Ok jar'
    ∧ ∀ n v, In (n, v) (jar_pairs jar')
             ↔ ∃ c, last_named n (jar_items jar) = Some c
                    ∧ ck_value c = v ∧ is_expired now c = false.
Proof.
  destruct (encode_then_loop now jar) as (jar0 & stored & Hloop & Hpairs).
  unfold Session_cookies, Session_cookies_set. simpl. rewrite Hloop. simpl.
  by eexists.
Qed.

(** X7. The entry the setter writes for a cookie holds exactly nine
    attributes, with the cookie's values: version, value, port, domain,
    path, secure, expires, discard and rfc2109; the name (the entry's key),
    the comment fields, the [*_specified] flags and [_rest] are not in
    it. *)
Theorem cookie_dict_of_attributes (c : Cookie) :
  cookie_dict_of c
  = list_to_map
      [ ("version", of_opt_int (ck_version c));
        ("value", of_opt_str (ck_value c));
        ("port", of_opt_str (ck_port c));
        ("domain", VStr (ck_domain c));
        ("path", VStr (ck_path c));
        ("secure", VBool (ck_secure c));
        ("expires", of_opt_int (ck_expires c));
        ("discard", VBool (ck_discard c));
        ("rfc2109", VBool (ck_rfc2109 c)) ]
  ∧ (∀ k, k ∈ excluded → cookie_dict_of c !! k = None).
Proof.
  destruct c as [ver nm val port ps dm ds did path pths sec exp disc com comu rfc rest].
  split.
  - vm_compute. reflexivity.
  - intros k Hk. unfold excluded in Hk.
    repeat (apply elem_of_cons in Hk as [->|Hk]; [by vm_compute|]).
    by apply not_elem_of_nil in Hk.
Qed.

(** ** One run after another *)

Lemma loaded_write_same (p : FilePath) (d : SessionData) (f : FS) :
  loaded p (write_file p (Stored d) f) = d.
Proof. unfold loaded. by rewrite read_file_write_same. Qed.

Section Runs_twice.
Variable client : ClientCall → ClientOutcome.
Variable urlparse_netloc : string → string.

(** What a run that returns and saves leaves in the session file. *)
Lemma get_response_saved now name rk cfg ro w resp :
  let run := get_response client urlparse_netloc now name rk cfg ro w in
  let p := session_file (target_host urlparse_netloc rk cfg) name in
  fst run = Ok resp →
  absent p (fs w) || negb ro = true →
  ∃ call cj,
    sent (snd run) = sent w ++ [call]
    ∧ client call = Returned resp cj
    ∧ s_headers (loaded p (fs (snd run)))
      = headers_update (s_headers (loaded p (fs w))) (rk_headers rk)
    ∧ s_cookies (loaded p (fs (snd run))) = encode_cookies cj
    ∧ s_auth (loaded p (fs (snd run)))
      = match rk_auth rk with
        | Some c => auth_record c
        | None => s_auth (loaded p (fs w))
        end.
Proof.
  intros run p Hok Hsave.
  destruct run as [r w'] eqn:Hrun. unfold run in Hrun. cbn [fst snd] in *.
  apply get_response_cases in Hrun. fold p in Hrun.
  destruct Hrun as [(e & -> & _)|(cred & jar & stored & _ & _ & _ & _ & Hs & Hc)];
    [done|].
  eexists. destruct (client _) as [resp' cj|e] eqn:Ecl.
  2:{ destruct Hc as [-> _]. done. }
  destruct Hc as [-> Hfs]. injection Hok as ->.
  exists cj. split; [exact Hs|]. split; [exact Ecl|].
  rewrite Hsave in Hfs. rewrite Hfs, loaded_write_same. done.
Qed.

(** X8. Headers accumulate in the session: after a run that returned and
    saved, the next run for the same host and session sends its own request
    headers, then those of the earlier request, then what the session held
    before, in that order of precedence. *)
Theorem get_response_headers_persist
    now1 now2 name rk1 rk2 cfg ro1 ro2 w resp call2 rest :
  let run1 := get_response client urlparse_netloc now1 name rk1 cfg ro1 w in
  let run2 := get_response client urlparse_netloc now2 name rk2 cfg ro2 (snd run1) in
  let p := session_file (target_host urlparse_netloc rk1 cfg) name in
  fst run1 = Ok resp →
  absent p (fs w) || negb ro1 = true →
  target_host_name urlparse_netloc rk2 = target_host_name urlparse_netloc rk1 →
  sent (snd run2) = sent (snd run1) ++ call2 :: rest →
  rk_headers (call_kwargs call2)
  = rk_headers rk2 ∪ (rk_headers rk1 ∪ s_headers (loaded p (fs w))).
Proof.
  intros run1 run2 p Hok Hsave Hhost Hsent.
  destruct (get_response_saved now1 name rk1 cfg ro1 w resp Hok Hsave)
    as (call & cj & _ & _ & Hh & _ & _).
  fold run1 p in Hh.
  destruct run2 as [r w'] eqn:Hrun. unfold run2 in Hrun. cbn [snd] in Hsent.
  apply get_response_cases in Hrun.
  destruct Hrun as [(e & _ & Hs & _)|(cred & jar & st & _ & _ & _ & _ & Hs & _)].
  { rewrite Hs in Hsent. by apply app_none_inv in Hsent. }
  apply (app_one_inv _ _ _ _ Hs) in Hsent. injection Hsent as -> _.
  cbn [call_kwargs rk_headers].
  replace (target_host urlparse_netloc rk2 cfg)
    with (target_host urlparse_netloc rk1 cfg)
    by (unfold target_host; by rewrite Hhost).
  fold p. rewrite Hh. done.
Qed.

(** X9. Credentials are remembered: after a run with credentials on the
    request that returned and saved, the next run for the same host and
    session, with no credentials of its own, sends those credentials. *)
Theorem get_response_auth_persists
    now1 now2 name rk1 rk2 cfg ro1 ro2 w resp cred call2 rest :
  let run1 := get_response client urlparse_netloc now1 name rk1 cfg ro1 w in
  let run2 := get_response client urlparse_netloc now2 name rk2 cfg ro2 (snd run1) in
  let p := session_file (target_host urlparse_netloc rk1 cfg) name in
  fst run1 = Ok resp →
  absent p (fs w) || negb ro1 = true →
  target_host_name urlparse_netloc rk2 = target_host_name urlparse_netloc rk1 →
  rk_auth rk1 = Some cred →
  rk_auth rk2 = None →
  sent (snd run2) = sent (snd run1) ++ call2 :: rest →
  rk_auth (call_kwargs call2) = Some cred.
Proof.
  intros run1 run2 p Hok Hsave Hhost Hc1 Hc2 Hsent.
  destruct (get_response_saved now1 name rk1 cfg ro1 w resp Hok Hsave)
    as (call & cj & _ & _ & _ & _ & Ha).
  fold run1 p in Ha. rewrite Hc1 in Ha.
  destruct run2 as [r w'] eqn:Hrun. unfold run2 in Hrun. cbn [snd] in Hsent.
  apply get_response_cases in Hrun.
  destruct Hrun as [(e & _ & Hs & _)|(cr & jar & st & _ & _ & Hcr & _ & Hs & _)].
  { rewrite Hs in Hsent. by apply app_none_inv in Hsent. }
  apply (app_one_inv _ _ _ _ Hs) in Hsent. injection Hsent as -> _.
  cbn [call_kwargs rk_auth]. rewrite Hc2 in Hcr.
  replace (target_host urlparse_netloc rk2 cfg)
    with (target_host urlparse_netloc rk1 cfg) in Hcr
    by (unfold target_host; by rewrite Hhost).
  fold p in Hcr. unfold Session_auth in Hcr. cbn [data set_headers s_auth] in Hcr.
  rewrite Ha in Hcr. destruct cred; cbn in Hcr; congruence.
Qed.

(** X10. Cookies are remembered: after a run that returned and saved, the
    next run for the same host and session sends, for each cookie name of
    the jar the client left, the value of the last cookie of that name,
    unless that cookie has expired by then. *)
Theorem get_response_cookies_persist
    now1 now2 name rk1 rk2 cfg ro1 ro2 w resp call2 rest :
  let run1 := get_response client urlparse_netloc now1 name rk1 cfg ro1 w in
  let run2 := get_response client urlparse_netloc now2 name rk2 cfg ro2 (snd run1) in
  let p := session_file (target_host urlparse_netloc rk1 cfg) name in
  fst run1 = Ok resp →
  absent p (fs w) || negb ro1 = true →
  target_host_name urlparse_netloc rk2 = target_host_name urlparse_netloc rk1 →
  sent (snd run2) = sent (snd run1) ++ call2 :: rest →
  ∃ call1 cj,
    sent (snd run1) = sent w ++ [call1]
    ∧ client call1 = Returned resp cj
    ∧ ∀ n v, In (n, v) (jar_pairs (call_cookies call2))
             ↔ ∃ c, last_named n (jar_items cj) = Some c
                    ∧ ck_value c = v ∧ is_expired now2 c = false.
Proof.
  intros run1 run2 p Hok Hsave Hhost Hsent.
  destruct (get_response_saved now1 name rk1 cfg ro1 w resp Hok Hsave)
    as (call & cj & Hs1 & Hcl & _ & Hck & _).
  fold run1 p in Hck, Hs1. exists call, cj. split; [done|]. split; [done|].
  destruct run2 as [r w'] eqn:Hrun. unfold run2 in Hrun. cbn [snd] in Hsent.
  apply get_response_cases in Hrun.
  destruct Hrun as [(e & _ & Hs & _)|(cr & jar & st & _ & _ & _ & Hloop & Hs & _)].
  { rewrite Hs in Hsent. by apply app_none_inv in Hsent. }
  apply (app_one_inv _ _ _ _ Hs) in Hsent. injection Hsent as -> _.
  cbn [call_cookies].
  replace (target_host urlparse_netloc rk2 cfg)
    with (target_host urlparse_netloc rk1 cfg) in Hloop
    by (unfold target_host; by rewrite Hhost).
  fold p in Hloop. rewrite Hck in Hloop.
  destruct (encode_then_loop now2 cj) as (jar0 & stored & Hloop' & Hpairs).
  rewrite Hloop in Hloop'. injection Hloop' as <- _. exact Hpairs.
Qed.

End Runs_twice.

Lemma get_response_headers_persist_witness :
  let run1 := get_response Sample.server Sample.netloc 0 "s1"
                Sample.request_with_auth "/cfg" false Sample.one_session_world in
  let p := session_file
             (target_host Sample.netloc Sample.request_with_auth "/cfg") "s1" in
  rk_headers (call_kwargs Sample.later_call)
  = rk_headers Sample.later_request
    ∪ (rk_headers Sample.request_with_auth
       ∪ s_headers (loaded p (fs Sample.one_session_world))).
Proof.
  apply (get_response_headers_persist Sample.server Sample.netloc 0 7 "s1"
           Sample.request_with_auth Sample.later_request "/cfg" false true
           Sample.one_session_world Sample.ok_response Sample.later_call []);
    by vm_compute.
Defined.

Lemma get_response_auth_persists_witness :
  rk_auth (call_kwargs Sample.later_call)
  = Some (HTTPDigestAuth (Some "me") (Some "secret")).
Proof.
  apply (get_response_auth_persists Sample.server Sample.netloc 0 7 "s1"
           Sample.request_with_auth Sample.later_request "/cfg" false true
           Sample.one_session_world Sample.ok_response
           (HTTPDigestAuth (Some "me") (Some "secret")) Sample.later_call []);
    by vm_compute.
Defined.

Lemma get_response_cookies_persist_witness :
  let run1 := get_response Sample.server Sample.netloc 0 "s1"
                Sample.request_with_auth "/cfg" false Sample.one_session_world in
  ∃ call1 cj,
    sent (snd run1) = sent Sample.one_session_world ++ [call1]
    ∧ Sample.server call1 = Returned Sample.ok_response cj
    ∧ ∀ n v, In (n, v) (jar_pairs (call_cookies Sample.later_call))
             ↔ ∃ c, last_named n (jar_items cj) = Some c
                    ∧ ck_value c = v ∧ is_expired 7 c = false.
Proof.
  apply (get_response_cookies_persist Sample.server Sample.netloc 0 7 "s1"
           Sample.request_with_auth Sample.later_request "/cfg" false true
           Sample.one_session_world Sample.ok_response Sample.later_call []);
    by vm_compute.
Defined.

(** ** Host directories, further *)

(** X11. [Host.path] makes the host's directory when it is missing and
    otherwise changes nothing: afterwards the directory has an entry, every
    entry that existed is as it was, every file reads as before, and asking
    for the path again gives the same path and the same store. *)
Theorem Host_path_idempotent (h : Host) (w : World) :
  let w1 := snd (Host_path h w) in
  fst (Host_path h w) = Ok (Host_dir h)
  ∧ is_Some (lookup_entry (Host_dir h) (fs w1))
  ∧ (∀ q e, lookup_entry q (fs w) = Some e → lookup_entry q (fs w1) = Some e)
  ∧ (∀ q, read_file q (fs w1) = read_file q (fs w))
  ∧ sent w1 = sent w
  ∧ Host_path h w1 = (Ok (Host_dir h), w1).
Proof.
  rewrite Host_path_run. cbn [fst snd fs with_fs].
  split; [done|]. split; [|split; [|split; [|split]]].
  - rewrite lookup_entry_makedirs.
    destruct (lookup_entry (Host_dir h) (fs w)); [by eexists|].
    rewrite decide_True by done. by eexists.
  - intros q e Hq. by rewrite lookup_entry_makedirs, Hq.
  - intros q. apply read_file_makedirs.
  - done.
  - rewrite Host_path_run. cbn [fs with_fs]. by rewrite makedirs_idem.
Qed.

Lemma class_star_end_replace (cls : ascii → bool) (l : list ascii) :
  cls "_"%char = true → cls ":"%char = true →
  class_star_end cls l = true →
  class_star_end cls (map (fun c => if Ascii.eqb c ":" then "_"%char else c) l) = true.
Proof.
  intros Hu Hc. induction l as [|c l IH]; [done|]. simpl.
  destruct (Ascii.eqb c ":") eqn:E.
  - apply Ascii.eqb_eq in E. subst c. rewrite Hc, Hu. exact IH.
  - destruct (cls c); [exact IH|].
    destruct l; [done|]. by rewrite andb_false_r.
Qed.

Lemma replace_colon_twice (l : list ascii) :
  map (fun c => if Ascii.eqb c ":" then "_"%char else c)
      (map (fun c => if Ascii.eqb c ":" then "_"%char else c) l)
  = map (fun c => if Ascii.eqb c ":" then "_"%char else c) l.
Proof.
  rewrite map_map. apply map_ext. intros c.
  destruct (Ascii.eqb c ":") eqn:E; [done|]. by rewrite E.
Qed.

(** X12. The directory name of a host has no colon in it, is itself a valid
    host name when the host's name is, and is its own directory name: a host
    named with a colon and the host named with an underscore in its place
    share one directory. *)
Theorem Host_dir_name (h : Host) :
  (colon ∉ chars (dp_name (Host_dir h)))
  ∧ (Host_VALID_NAME (host_name h) = true →
       Host_VALID_NAME (dp_name (Host_dir h)) = true)
  ∧ Host_dir {| host_name := dp_name (Host_dir h); root_dir := root_dir h |}
    = Host_dir h.
Proof.
  unfold Host_dir. cbn [dp_name dp_root host_name root_dir].
  unfold replace_char. rewrite !chars_str. split; [|split].
  - intros Hin. apply list_elem_of_In, in_map_iff in Hin as [c [Hc _]].
    destruct (Ascii.eqb c ":") eqn:E; [done|].
    apply Ascii.eqb_neq in E. unfold colon in Hc. congruence.
  - unfold Host_VALID_NAME, re_match_class_plus. rewrite chars_str.
    destruct (chars (host_name h)) as [|c l]; [done|]. cbn [map].
    intros [Hc Hl]%andb_true_iff. apply andb_true_iff. split.
    + by destruct (Ascii.eqb c ":").
    + by apply class_star_end_replace.
  - by rewrite replace_colon_twice.
Qed.

Lemma Host_dir_name_witness :
  Host_VALID_NAME (dp_name (Host_dir {| host_name := "example.com:8080";
                                        root_dir := "/cfg/sessions" |})) = true.
Proof.
  apply (Host_dir_name {| host_name := "example.com:8080";
                          root_dir := "/cfg/sessions" |}).
  reflexivity.
Defined.

(** ** Enumerating the sessions of a host *)

Lemma chars_append (a b : string) : chars (a +:+ b) = chars a ++ chars b.
Proof.
  unfold chars. induction a as [|c a IH]; simpl; [done|]. by rewrite IH.
Qed.

Lemma span_ext_split (r before : list ascii) :
  span_ext r = Some before → ∃ ext, r = ext ++ "."%char :: before.
Proof.
  induction r as [|c r IH]; simpl; [done|].
  destruct (Ascii.eqb c ".") eqn:E.
  - apply Ascii.eqb_eq in E. subst c. intros [= ->]. by exists [].
  - intros [ext ->]%IH. by exists (c :: ext).
Qed.

(** The stem of a name that does not begin with a dot does not begin with
    a dot either. *)
Lemma splitext_root_visible (fn : string) :
  hidden fn = false → hidden (splitext_root fn) = false.
Proof.
  intros Hfn. unfold splitext_root.
  destruct (span_ext (rev (chars fn))) as [before|] eqn:E; [|done].
  destruct (existsb _ before) eqn:Ex; [|done].
  apply span_ext_split in E as [ext Hr].
  apply (f_equal (@rev ascii)) in Hr. rewrite rev_involutive in Hr.
  rewrite rev_app_distr in Hr. simpl in Hr. rewrite <- app_assoc in Hr.
  unfold hidden, startswith in *. rewrite chars_str. rewrite Hr in Hfn.
  destruct (rev before) as [|c t] eqn:Eb.
  - apply (f_equal (@rev ascii)) in Eb. rewrite rev_involutive in Eb. by subst.
  - exact Hfn.
Qed.

Lemma splitext_root_json (n : string) :
  n ≠ "" → hidden n = false → splitext_root (n +:+ ".json") = n.
Proof.
  intros Hne Hn. unfold splitext_root. rewrite chars_append, rev_app_distr.
  change (rev (chars ".json")) with (chars "nosj.").
  cbn [chars list_ascii_of_string app span_ext Ascii.eqb Bool.eqb].
  assert (Hex : existsb (fun c => negb (Ascii.eqb c ".")) (rev (chars n)) = true).
  { apply existsb_exists. unfold hidden, startswith in Hn.
    destruct (chars n) as [|c t] eqn:Ec.
    - exfalso. apply Hne. rewrite <- (str_chars n), Ec. done.
    - exists c. split; [apply in_rev; rewrite rev_involutive; by left|].
      change (prefix_chars (chars ".") (c :: t))
        with (Ascii.eqb "." c && true) in Hn.
      rewrite andb_true_r in Hn.
      rewrite Ascii.eqb_sym. by rewrite Hn. }
  rewrite Hex. by rewrite rev_involutive, str_chars.
Qed.

Lemma endswith_json (n : string) : endswith ".json" (n +:+ ".json") = true.
Proof.
  unfold endswith. rewrite chars_append, rev_app_distr.
  change (rev (chars ".json")) with (chars "nosj."). done.
Qed.

Lemma hidden_append (n s : string) : n ≠ "" → hidden (n +:+ s) = hidden n.
Proof.
  intros Hne. unfold hidden, startswith. rewrite chars_append.
  destruct (chars n) as [|c t] eqn:Ec; [|done].
  exfalso. apply Hne. rewrite <- (str_chars n), Ec. done.
Qed.

Lemma Host_iter_from_run (h : Host) (fns : list string) (w : World) :
  Forall (fun fn => Session_VALID_NAME (splitext_root fn) = true) fns →
  Host_iter_from h fns w
  = (Ok (map (fun fn => {| host := h; name := splitext_root fn; data := defaults |})
             fns, None), w).
Proof.
  induction 1 as [|fn fns Hfn Hall IH]; [done|].
  cbn [Host_iter_from map]. unfold mbind, M_bind, attempt.
  rewrite Session_init_run, Hfn. fold (Host_iter_from h fns). by rewrite IH.
Qed.

Lemma Host_iter_from_yields (h : Host) (fns : list string) (w : World) :
  ∃ sessions e,
    Host_iter_from h fns w = (Ok (sessions, e), w)
    ∧ ∀ s, In s sessions →
        host s = h ∧ data s = defaults ∧ ∃ fn, In fn fns ∧ name s = splitext_root fn.
Proof.
  induction fns as [|fn fns IH].
  - exists [], None. by split.
  - cbn [Host_iter_from]. unfold mbind, M_bind, attempt.
    rewrite Session_init_run.
    destruct (Session_VALID_NAME (splitext_root fn)).
    + fold (Host_iter_from h fns). destruct IH as (ss & e & -> & Hss).
      eexists _, _. split; [reflexivity|]. cbn [fst snd].
      intros s [<-|Hs].
      * split; [done|]. split; [done|]. exists fn. split; [by left|done].
      * destruct (Hss s Hs) as (? & ? & fn' & ? & ?).
        split; [done|]. split; [done|]. exists fn'. split; [by right|done].
    + exists [], (Some AssertionError). by split.
Qed.

(** X13. Iterating a host always leaves the host's directory in place
    (making it when it was missing), changes no file, and yields sessions
    that belong to the host, hold the default data (no file is read), and
    have names that do not begin with a dot; for a host whose directory was
    missing it yields none. *)
Theorem Host_iter_yields (h : Host) (w : World) :
  ∃ sessions e,
    Host_iter h w
    = (Ok (sessions, e), with_fs (makedirs (Host_dir h) (fs w)) w)
    ∧ (∀ s, In s sessions →
         host s = h ∧ data s = defaults ∧ hidden (name s) = false)
    ∧ (lookup_entry (Host_dir h) (fs w) = None → sessions = [] ∧ e = None).
Proof.
  unfold Host_iter. unfold mbind at 1 2, M_bind at 1 2.
  rewrite Host_path_run. unfold glob1_json, mbind, M_bind, get_fs, mret, M_ret.
  cbn [fs with_fs].
  set (w1 := with_fs (makedirs (Host_dir h) (fs w)) w).
  set (fns := match lookup_entry (Host_dir h) (makedirs (Host_dir h) (fs w)) with
              | Some (Directory files) =>
                  filter (fun n => hidden n = false ∧ endswith ".json" n = true)
                         (map fst (map_to_list files))
              | _ => []
              end).
  destruct (Host_iter_from_yields h (sorted fns) w1) as (ss & e & Hrun & Hss).
  exists ss, e. split; [exact Hrun|]. split.
  - intros s Hs. destruct (Hss s Hs) as (Hh & Hd & fn & Hfn & Hn).
    split; [done|]. split; [done|]. rewrite Hn. apply splitext_root_visible.
    eapply Permutation_in in Hfn; [|apply sorted_perm].
    unfold fns in Hfn. destruct (lookup_entry _ _) as [[files|t]|]; [|done..].
    by apply list_elem_of_In, list_elem_of_filter in Hfn as [[? _] _].
  - intros Hnone. assert (Hfns : fns = []).
    { unfold fns. rewrite lookup_entry_makedirs, Hnone.
      rewrite decide_True by done. by rewrite map_to_list_empty. }
    rewrite Hfns in Hrun. cbn in Hrun. by injection Hrun as <- <-.
Qed.

(** X14. A session file shows up in the listing: when the host's directory
    holds [n.json] for a valid session name [n] that does not begin with a
    dot, and every [.json] file there has a valid session name as its stem,
    iterating the host runs to its end, changes nothing, and yields a
    session named [n]. *)
Theorem Host_iter_lists_file (h : Host) (w : World) (n : string)
    (files : gmap string FileContent) :
  lookup_entry (Host_dir h) (fs w) = Some (Directory files) →
  is_Some (files !! (n +:+ ".json")) →
  Session_VALID_NAME n = true →
  hidden n = false →
  (∀ fn, is_Some (files !! fn) → hidden fn = false → endswith ".json" fn = true →
         Session_VALID_NAME (splitext_root fn) = true) →
  ∃ sessions,
    Host_iter h w = (Ok (sessions, None), w)
    ∧ In {| host := h; name := n; data := defaults |} sessions.
Proof.
  intros Hdir [c Hc] Hvalid Hhid Hall.
  assert (Hne : n ≠ "") by (intros ->; done).
  unfold Host_iter. unfold mbind at 1 2, M_bind at 1 2.
  rewrite Host_path_run. unfold glob1_json, mbind, M_bind, get_fs, mret, M_ret.
  cbn [fs with_fs]. rewrite (makedirs_present _ _ _ Hdir), Hdir.
  replace (with_fs (fs w) w) with w by (by destruct w).
  set (fns := filter (fun n => hidden n = false ∧ endswith ".json" n = true)
                     (map fst (map_to_list files))).
  assert (Hfns : ∀ fn, In fn fns ↔
                   is_Some (files !! fn) ∧ hidden fn = false
                   ∧ endswith ".json" fn = true).
  { intros fn. unfold fns. rewrite <- list_elem_of_In, list_elem_of_filter.
    rewrite list_elem_of_In, in_map_iff. split.
    - intros [[? ?] [[k x] [<- Hin]]].
      apply list_elem_of_In, elem_of_map_to_list in Hin. split; [by eexists|done].
    - intros [[x Hx] [? ?]]. split; [done|]. exists (fn, x). split; [done|].
      by apply list_elem_of_In, elem_of_map_to_list. }
  rewrite Host_iter_from_run.
  - eexists. split; [reflexivity|]. apply in_map_iff.
    exists (n +:+ ".json"). split; [by rewrite splitext_root_json|].
    eapply Permutation_in; [symmetry; apply sorted_perm|]. apply Hfns.
    split; [by eexists|]. split; [by rewrite hidden_append|apply endswith_json].
  - apply Forall_forall. intros fn Hfn. apply list_elem_of_In in Hfn.
    eapply Permutation_in in Hfn; [|apply sorted_perm].
    apply Hfns in Hfn as (? & ? & ?). by apply Hall.
Qed.

Lemma Host_iter_lists_file_witness :
  ∃ sessions,
    Host_iter Sample.example_host Sample.one_session_world
    = (Ok (sessions, None), Sample.one_session_world)
    ∧ In {| host := Sample.example_host; name := "s1"; data := defaults |} sessions.
Proof.
  apply (Host_iter_lists_file Sample.example_host Sample.one_session_world "s1"
           {[ "s1.json" := Stored Sample.stored_session ]}).
  - by vm_compute.
  - rewrite lookup_singleton_eq. by eexists.
  - reflexivity.
  - reflexivity.
  - intros fn [x Hx] _ _.
    apply lookup_singleton_Some in Hx as [<- _]. reflexivity.
Defined.

(** ** Deleting a host *)









(** ** Enumerating all hosts *)

Lemma hosts_of_exact (root : string) (f : FS) (names : list string) :
  all_valid root f names →
  hosts_of root f names
  = (map (fun n => {| host_name := re_sub_port n; root_dir := root |})
         (filter (fun n => isdir {| dp_root := root; dp_name := n |} f = true) names),
     None).
Proof.
  induction 1 as [|n names Hn Hall IH]; [done|]. cbn [hosts_of].
  rewrite filter_cons.
  destruct (isdir {| dp_root := root; dp_name := n |} f) eqn:Ed.
  - rewrite decide_True by done. rewrite Hn by done. rewrite IH. done.
  - rewrite decide_False by done. exact IH.
Qed.

Lemma hosts_of_end (root : string) (f : FS) (names : list string) :
  (snd (hosts_of root f names) = None ∨ snd (hosts_of root f names) = Some AssertionError)
  ∧ (snd (hosts_of root f names) = Some AssertionError
     ↔ ∃ n, In n names ∧ isdir {| dp_root := root; dp_name := n |} f = true
            ∧ Host_VALID_NAME (re_sub_port n) = false).
Proof.
  induction names as [|n names [IH1 IH2]]; cbn [hosts_of snd].
  - split; [by left|]. split; [done|]. by intros (? & [] & _).
  - destruct (isdir {| dp_root := root; dp_name := n |} f) eqn:Ed.
    + destruct (Host_VALID_NAME (re_sub_port n)) eqn:Ev; cbn [snd].
      * split; [exact IH1|]. rewrite IH2. split.
        -- intros (m & ? & ?). exists m. split; [by right|done].
        -- intros (m & [<-|?] & Hd & Hv); [congruence|]. by exists m.
      * split; [by right|]. split; [|done]. intros _. exists n. split; [by left|done].
    + split; [exact IH1|]. rewrite IH2. split.
      * intros (m & ? & ?). exists m. split; [by right|done].
      * intros (m & [<-|?] & Hd & Hv); [congruence|]. by exists m.
Qed.

#[local] Instance str_le_total : Total str_le.
Proof. intros a b. unfold str_le. apply String.leb_total. Qed.

(** X17. When every directory of the root that does not begin with a dot
    has a valid host name (after a trailing [_digits] is turned into
    [:digits]), [Host.all] changes nothing and yields exactly one host for
    each such directory, in the sorted order of the directory names;
    regular files and names with a leading dot are passed over. *)
Theorem Host_all_lists (root : string) (w : World) :
  let names := filter (fun n => hidden n = false) (listdir root (fs w)) in
  all_valid root (fs w) names →
  Host_all root w
  = (Ok (map (fun n => {| host_name := re_sub_port n; root_dir := root |})
             (filter (fun n => isdir {| dp_root := root; dp_name := n |} (fs w) = true)
                     (sorted names)),
         None), w)
  ∧ Sorted str_le (sorted names)
  ∧ sorted names ≡ₚ names.
Proof.
  intros names Hall. rewrite Host_all_run. fold names. split; [|split].
  - rewrite hosts_of_exact; [done|].
    eapply all_valid_perm; [symmetry; apply sorted_perm|done].
  - unfold sorted. apply Sorted_merge_sort. apply _.
  - apply sorted_perm.
Qed.

Lemma Host_all_lists_witness :
  let names := filter (fun n => hidden n = false)
                 (listdir "/cfg/sessions" (fs Sample.one_session_world)) in
  Host_all "/cfg/sessions" Sample.one_session_world
  = (Ok (map (fun n => {| host_name := re_sub_port n; root_dir := "/cfg/sessions" |})
             (filter (fun n => isdir {| dp_root := "/cfg/sessions"; dp_name := n |}
                                     (fs Sample.one_session_world) = true)
                     (sorted names)),
         None), Sample.one_session_world)
  ∧ Sorted str_le (sorted names)
  ∧ sorted names ≡ₚ names.
Proof.
  apply (Host_all_lists "/cfg/sessions" Sample.one_session_world).
  unfold all_valid. vm_compute. by repeat constructor.
Defined.

(** X18. [Host.all] never changes the world; it runs to its end unless some
    directory of the root, not beginning with a dot, has an invalid host
    name, in which case (and only then) it ends with [AssertionError]. *)
Theorem Host_all_aborts (root : string) (w : World) :
  ∃ hosts e,
    Host_all root w = (Ok (hosts, e), w)
    ∧ (e = None ∨ e = Some AssertionError)
    ∧ (e = Some AssertionError
       ↔ ∃ n, In n (listdir root (fs w)) ∧ hidden n = false
              ∧ isdir {| dp_root := root; dp_name := n |} (fs w) = true
              ∧ Host_VALID_NAME (re_sub_port n) = false).
Proof.
  rewrite Host_all_run.
  set (names := filter (fun n => hidden n = false) (listdir root (fs w))).
  destruct (hosts_of_end root (fs w) (sorted names)) as [H1 H2].
  destruct (hosts_of root (fs w) (sorted names)) as [hosts e] eqn:E.
  exists hosts, e. cbn [snd] in *. split; [done|]. split; [exact H1|].
  rewrite H2. split.
  - intros (n & Hn & Hd & Hv). exists n.
    eapply Permutation_in in Hn; [|apply sorted_perm].
    apply list_elem_of_In, list_elem_of_filter in Hn as [Hh Hn].
    apply list_elem_of_In in Hn. done.
  - intros (n & Hn & Hh & Hd & Hv). exists n. split; [|done].
    eapply Permutation_in; [symmetry; apply sorted_perm|].
    apply list_elem_of_In, list_elem_of_filter. split; [done|].
    by apply list_elem_of_In.
Qed.

(** ** The commands that print *)

Lemma run_eq {A} (m : M A) (p : Proc) (r : Res A) (w' : World) :
  m (world p) = (r, w') →
  run m p = (match r with Ok a => Done a | Raise e => Failed e end, with_world w' p).
Proof. intros H. unfold run. rewrite H. by destruct r. Qed.

Lemma Session_path_run (s : Session) (w : World) :
  Session_path s w
  = (Ok (session_file (host s) (name s)),
     with_fs (makedirs (Host_dir (host s)) (fs w)) w).
Proof. reflexivity. Qed.

Lemma Session_verbose_name_run (s : Session) (w : World) :
  Session_verbose_name s w
  = (Ok (host_name (host s) +:+ " " +:+ name s +:+ " "
         +:+ file_str (session_file (host s) (name s))),
     with_fs (makedirs (Host_dir (host s)) (fs w)) w).
Proof. reflexivity. Qed.

Lemma with_world_same (p : Proc) : with_world (world p) p = p.
Proof. by destruct p. Qed.

Lemma with_fs_id (w : World) : with_fs (fs w) w = w.
Proof. by destruct w. Qed.

Lemma os_path_exists_run (f : FilePath) (w : World) :
  os_path_exists f w = (Ok (negb (absent f (fs w))), w).
Proof.
  unfold os_path_exists, absent, mbind, M_bind, get_fs, mret, M_ret.
  by destruct (read_file f (fs w)).
Qed.

Lemma read_text_run (file_text : FileContent → string) (f : FilePath) (w : World)
    (c : FileContent) :
  read_file f (fs w) = Some c → read_text file_text f w = (Ok (file_text c), w).
Proof.
  intros Hc. unfold read_text, open_read, mbind, M_bind, get_fs, mret, M_ret.
  pose proof Hc as Hc'. unfold read_file in Hc'.
  destruct (lookup_entry (fp_dir f) (fs w)) as [[files|t]|]; [|done..].
  by rewrite Hc.
Qed.

Section Commands_facts.
Variable cfg : string.
Variable file_text : FileContent → string.
Variable process_body : string → string.

Lemma command_session_show_missing_run (hostname session_name : string) (p : Proc) :
  let h := {| host_name := hostname; root_dir := DEFAULT_SESSIONS_DIR cfg |} in
  let f := session_file h session_name in
  Host_VALID_NAME hostname = true →
  Session_VALID_NAME session_name = true →
  read_file f (fs (world p)) = None →
  command_session_show cfg file_text process_body hostname session_name p
  = (Exit 1,
     {| world := with_fs (makedirs (Host_dir h) (fs (world p))) (world p);
        stdout := stdout p;
        stderr := stderr p ++ ["Session does not exist: "
                               +:+ (hostname +:+ " " +:+ session_name +:+ " "
                                    +:+ file_str f)
                               +:+ String newline ""];
        spawned := spawned p |}).
Proof.
  intros h f Hh Hs Hnone. destruct p as [w so se sp]. cbn [world] in *.
  unfold command_session_show. unfold mbind, Cmd_bind, run.
  rewrite Host_init_run, Hh. cbn [world with_world].
  rewrite Session_init_run, Hs. cbn [world with_world]. fold h.
  rewrite Session_path_run. cbn [world with_world host name fs with_fs]. fold f.
  rewrite os_path_exists_run. cbn [fs with_fs world with_world].
  unfold absent. rewrite read_file_makedirs, Hnone. cbn [negb].
  rewrite Session_verbose_name_run.
  unfold stderr_write, sys_exit, with_world, with_fs.
  cbn [fs sent world stdout stderr spawned host name host_name h].
  rewrite makedirs_idem. reflexivity.
Qed.

(** X19. Asked to show a session that has no file, with valid names, the
    show command ends the process with status 1, having written one line
    that names the session to standard error and nothing to standard
    output; it starts no process and changes no file. *)
Theorem command_session_show_missing (hostname session_name : string) (p : Proc) :
  let h := {| host_name := hostname; root_dir := DEFAULT_SESSIONS_DIR cfg |} in
  let f := session_file h session_name in
  let out := command_session_show cfg file_text process_body hostname session_name p in
  Host_VALID_NAME hostname = true →
  Session_VALID_NAME session_name = true →
  read_file f (fs (world p)) = None →
  fst out = Exit 1
  ∧ stderr (snd out)
    = stderr p ++ ["Session does not exist: "
                   +:+ (hostname +:+ " " +:+ session_name +:+ " " +:+ file_str f)
                   +:+ String newline ""]
  ∧ stdout (snd out) = stdout p
  ∧ spawned (snd out) = spawned p
  ∧ sent (world (snd out)) = sent (world p)
  ∧ ∀ q, read_file q (fs (world (snd out))) = read_file q (fs (world p)).
Proof.
  intros h f out Hh Hs Hnone. unfold out.
  rewrite (command_session_show_missing_run hostname session_name p Hh Hs Hnone).
  cbn [fst snd world stdout stderr spawned fs with_fs sent].
  repeat split. intros q. apply read_file_makedirs.
Qed.

(** X20. Asked to show a session whose file exists, with valid names, the
    show command returns after printing three things: the session's
    verbose name followed by a colon and a line break, the highlighted text
    of the file, and an empty line; it writes nothing to standard error,
    starts no process and leaves the world as it was. *)
Theorem command_session_show_prints (hostname session_name : string) (p : Proc)
    (c : FileContent) :
  let h := {| host_name := hostname; root_dir := DEFAULT_SESSIONS_DIR cfg |} in
  let f := session_file h session_name in
  Host_VALID_NAME hostname = true →
  Session_VALID_NAME session_name = true →
  read_file f (fs (world p)) = Some c →
  command_session_show cfg file_text process_body hostname session_name p
  = (Done tt,
     {| world := world p;
        stdout := stdout p
                  ++ [(hostname +:+ " " +:+ session_name +:+ " " +:+ file_str f)
                      +:+ ":" +:+ String newline "";
                      process_body (file_text c);
                      ""];
        stderr := stderr p;
        spawned := spawned p |}).
Proof.
  intros h f Hh Hs Hc. destruct p as [w so se sp]. cbn [world] in *.
  assert (Hm : makedirs (Host_dir h) (fs w) = fs w).
  { apply (present_dir f). unfold absent. by rewrite Hc. }
  unfold command_session_show. unfold mbind, Cmd_bind, run.
  rewrite Host_init_run, Hh. cbn [world with_world].
  rewrite Session_init_run, Hs. cbn [world with_world]. fold h.
  rewrite Session_path_run. cbn [world with_world host name fs with_fs]. fold f.
  rewrite Hm, with_fs_id.
  rewrite os_path_exists_run. cbn [fs with_fs world with_world].
  unfold absent. rewrite Hc. cbn [negb].
  cbn [world with_world].
  rewrite (read_text_run file_text f w c Hc). cbn [world with_world].
  rewrite Session_verbose_name_run.
  unfold print, with_world. cbn [fs host name world stdout stderr spawned host_name h].
  rewrite Hm, with_fs_id. rewrite <- !app_assoc. reflexivity.
Qed.

End Commands_facts.

Lemma command_session_show_missing_witness :
  let h := {| host_name := "example.org"; root_dir := DEFAULT_SESSIONS_DIR "/cfg" |} in
  let f := session_file h "nope" in
  let out := command_session_show "/cfg" Demo.text_of Demo.highlight
               "example.org" "nope" Demo.console in
  fst out = Exit 1
  ∧ stderr (snd out)
    = stderr Demo.console
      ++ ["Session does not exist: "
          +:+ ("example.org" +:+ " " +:+ "nope" +:+ " " +:+ file_str f)
          +:+ String newline ""]
  ∧ stdout (snd out) = stdout Demo.console
  ∧ spawned (snd out) = spawned Demo.console
  ∧ sent (world (snd out)) = sent (world Demo.console)
  ∧ ∀ q, read_file q (fs (world (snd out))) = read_file q (fs (world Demo.console)).
Proof.
  apply (command_session_show_missing "/cfg" Demo.text_of Demo.highlight
           "example.org" "nope" Demo.console); by vm_compute.
Defined.

Lemma command_session_show_prints_witness :
  let h := {| host_name := "example.org"; root_dir := DEFAULT_SESSIONS_DIR "/cfg" |} in
  let f := session_file h "s1" in
  command_session_show "/cfg" Demo.text_of Demo.highlight "example.org" "s1"
    Demo.console
  = (Done tt,
     {| world := world Demo.console;
        stdout := stdout Demo.console
                  ++ [("example.org" +:+ " " +:+ "s1" +:+ " " +:+ file_str f)
                      +:+ ":" +:+ String newline "";
                      Demo.highlight (Demo.text_of (Stored Sample.stored_session));
                      ""];
        stderr := stderr Demo.console;
        spawned := spawned Demo.console |}).
Proof.
  apply (command_session_show_prints "/cfg" Demo.text_of Demo.highlight
           "example.org" "s1" Demo.console (Stored Sample.stored_session));
    by vm_compute.
Defined.

Example show_prints_path :
  stdout (snd (command_session_show "/cfg" Demo.text_of Demo.highlight
                 "example.org" "s1" Demo.console))
  = ["example.org s1 /cfg/sessions/example.org/s1.json:" +:+ String newline "";
     "{}"; ""].
Proof. by vm_compute. Qed.
